(** * FormValidator: a shallow embedding of the field validation engine

    The TypeScript class [FormValidator<T>] keeps three pieces of mutable
    state: a [Map] from field name to a [ValidatorModelItem], an object
    [formObjectErrors] addressed by field name, and an array of custom
    validators.  Every method is synchronous; mutation is modelled by
    explicit state passing, and the one way a method can leave abruptly
    (a [TypeError] raised while a rule runs) is modelled by a completion
    that is returned next to the state reached so far. *)

From Stdlib Require Import ZArith Ascii String List Bool Lia.
From stdpp Require Import base option list gmap strings pretty.

Set Warnings "-register-all".

Local Open Scope string_scope.
Local Open Scope Z_scope.

(** ** JavaScript values *)

(** [number]: the claims only compare integer bounds, so a finite number is
    kept as an integer; [NaN] is kept apart because it is falsy and every
    comparison with it is false. *)
Inductive number : Type :=
| NaN
| Num (z : Z).

(** A [Date] is its time value, in milliseconds since the epoch; the
    invalid date, whose time value is [NaN], is left out. *)
Abbreviation Date := Z (only parsing).

(** The stored field values have the TypeScript type [any].  Objects and
    arrays are plain data (what a deep copy of a record holds); an object
    is the list of its own enumerable properties in enumeration order.  A
    string is the sequence of its UTF-16 code units, one character for
    each: the strings whose code units are all below 256. *)
Inductive any : Type :=
| VUndefined
| VNull
| VBoolean (b : bool)
| VNumber (n : number)
| VString (s : string)
| VDate (d : Date)
| VArray (elements : list any)
| VObject (properties : list (string * any)).

Inductive JsError : Type :=
| TypeError.

(** Completion of a call: a value, or an exception that propagates. *)
Inductive completion (A : Type) : Type :=
| Normal (a : A)
| Abrupt (e : JsError).
Arguments Normal {A} a.
Arguments Abrupt {A} e.

Definition number_truthy (n : number) : bool :=
  match n with
  | NaN => false
  | Num z => negb (z =? 0)
  end.

(** [a < b] and [a > b] on numbers. *)
Definition number_lt (a b : number) : bool :=
  match a, b with
  | Num x, Num y => x <? y
  | _, _ => false
  end.

Definition number_gt (a b : number) : bool := number_lt b a.

Definition string_truthy (s : string) : bool :=
  match s with
  | EmptyString => false
  | String _ _ => true
  end.

(** Truthiness of a value, as the operand of [&&]. *)
Definition truthy (v : any) : bool :=
  match v with
  | VUndefined | VNull => false
  | VBoolean b => b
  | VNumber n => number_truthy n
  | VString s => string_truthy s
  | VDate _ | VArray _ | VObject _ => true
  end.

(** [s.length] *)
Definition string_length (s : string) : number :=
  Num (Z.of_nat (String.length s)).

(** The code units that [String.prototype.trim] removes (white space and
    line terminators), among those below 256: TAB, LF, VT, FF, CR, SPACE
    and the no-break space U+00A0. *)
Definition isWhiteSpace (a : ascii) : bool :=
  let n := nat_of_ascii a in
  ((9 <=? n)%nat && (n <=? 13)%nat) || (n =? 32)%nat || (n =? 160)%nat.

Fixpoint trimStart (s : string) : string :=
  match s with
  | EmptyString => EmptyString
  | String a rest => if isWhiteSpace a then trimStart rest else s
  end.

Fixpoint trimEnd (s : string) : string :=
  match s with
  | EmptyString => EmptyString
  | String a rest =>
      match trimEnd rest with
      | EmptyString => if isWhiteSpace a then EmptyString else String a EmptyString
      | rest' => String a rest'
      end
  end.

Definition trim (s : string) : string := trimEnd (trimStart s).

(** ** Types of the validator *)

Record ValidationSpecs : Type := {
  minLength : option number;
  maxLength : option number;
  minValue : option number;
  maxValue : option number;
  minDate : option Date;
  maxDate : option Date
}.

(** The object literal [{}]. *)
Definition noSpecs : ValidationSpecs :=
  {| minLength := None; maxLength := None; minValue := None;
     maxValue := None; minDate := None; maxDate := None |}.

(** One property of [{ ...a, ...b }]: the one of [b] when [b] has it. *)
Definition spreadKey {A : Type} (a b : option A) : option A :=
  match b with
  | Some v => Some v
  | None => a
  end.

(** [{ ...a, ...b }] *)
Definition spread (a b : ValidationSpecs) : ValidationSpecs :=
  {| minLength := spreadKey (minLength a) (minLength b);
     maxLength := spreadKey (maxLength a) (maxLength b);
     minValue := spreadKey (minValue a) (minValue b);
     maxValue := spreadKey (maxValue a) (maxValue b);
     minDate := spreadKey (minDate a) (minDate b);
     maxDate := spreadKey (maxDate a) (maxDate b) |}.

Module ValidationErrors.
Inductive t : Type :=
| empty
| invalidDate
| isWhitespace
| invalidEmail
| weakPassword
| beforeMinDate
| afterMaxDate
| lessThanMinLength
| moreThanMaxLength
| lessThanMinValue
| moreThanMaxValue
| invalidInput
| invalidPhoneNumber.
End ValidationErrors.

(** [ModelFieldError]; [errorSpecs] is its optional [specs] property. *)
Record ModelFieldError : Type := {
  errorCode : ValidationErrors.t;
  errorSpecs : option ValidationSpecs
}.

(** [{ errorCode: c }] *)
Definition codeOnly (c : ValidationErrors.t) : ModelFieldError :=
  {| errorCode := c; errorSpecs := None |}.

(** [{ errorCode: c, specs: sp }] *)
Definition codeWith (c : ValidationErrors.t) (sp : ValidationSpecs) : ModelFieldError :=
  {| errorCode := c; errorSpecs := Some sp |}.

(** At run time a validation type is the string that was passed. *)
Abbreviation ValidationType := string (only parsing).

(** [ModelErrors<T>]: an object addressed by field name. *)
Abbreviation ModelErrors := (gmap string ModelFieldError) (only parsing).

Record CustomValidator : Type := {
  fields : list string;
  errorFields : list string;
  validator : list any -> option ModelFieldError
}.

(** [name] stays [undefined] ([None]) when the constructor's guard fails. *)
Record ValidatorModelItem : Type := {
  name : option string;
  value : any;
  specs : ValidationSpecs;
  validations : list ValidationType
}.

(** [new ValidatorModelItem(name, value)]: the property initialisers run
    first, the assignments only for a truthy string [name]. *)
Definition ValidatorModelItem_new (n : string) (v : any) : ValidatorModelItem :=
  if string_truthy n then
    {| name := Some n; value := v; specs := noSpecs; validations := [] |}
  else
    {| name := None; value := VNull; specs := noSpecs; validations := [] |}.

(** ** The imported helpers *)

(** Modelled from the spec: [isEmpty] is imported from a module that is not
    among the sources; the spec describes it as the test that separates the
    empty string, array and object, [null] and [undefined] from populated
    values.  It is applied at three types. *)
Class IsEmpty (A : Type) : Type := isEmpty : A -> bool.

#[export] Instance isEmpty_any : IsEmpty any := fun v =>
  match v with
  | VUndefined | VNull => true
  | VString EmptyString => true
  | VArray [] => true
  | VObject [] => true
  | _ => false
  end.

(** An optional [specs] argument: [undefined], or an object that is empty
    when it has none of its properties. *)
#[export] Instance isEmpty_specs : IsEmpty (option ValidationSpecs) := fun o =>
  match o with
  | None => true
  | Some sp =>
      match minLength sp, maxLength sp, minValue sp, maxValue sp,
            minDate sp, maxDate sp with
      | None, None, None, None, None, None => true
      | _, _, _, _, _, _ => false
      end
  end.

(** The result of a rule: [null], or an object that has an [errorCode]. *)
#[export] Instance isEmpty_error : IsEmpty (option ModelFieldError) := fun o =>
  match o with
  | None => true
  | Some _ => false
  end.

(** Modelled from the spec: [isEmail], [isStrongPassword], [isPhoneNumber]
    and [clearTime] are imported from modules that are not among the
    sources; the spec describes each as a total pure function of its
    input, the first three as format tests and the last as the truncation
    of a date to its day. *)
Class Collaborators : Type := {
  isEmail : any -> bool;
  isStrongPassword : any -> bool;
  isPhoneNumber : any -> bool;
  clearTime : Date -> Date
}.

(** Modelled from the spec: [deepCopy] is imported from a module that is
    not among the sources; the spec describes it as the deep copy of an
    arbitrary record.  On immutable values a deep copy is the value. *)
Definition deepCopy (v : any) : any := v.

(** [moment(a).isBefore(b)] and [moment(a).isAfter(b)] on time values. *)
Definition isBefore (a b : Date) : bool := a <? b.
Definition isAfter (a b : Date) : bool := b <? a.

(** ** The class [FormValidator] *)

(** [formObject] is a [Map]: its entries are kept in insertion order, the
    order in which [forEach] visits them. *)
Record FormValidator : Type := {
  formObject : list (string * ValidatorModelItem);
  formObjectErrors : ModelErrors;
  customValidators : list CustomValidator
}.

(** [Map.prototype.get], [has] and [set], and the in-place update of the
    object that [get] returns. *)
Fixpoint Map_get (field : string) (m : list (string * ValidatorModelItem))
  : option ValidatorModelItem :=
  match m with
  | [] => None
  | (k, item) :: rest => if String.eqb k field then Some item else Map_get field rest
  end.

Definition Map_has (field : string) (m : list (string * ValidatorModelItem)) : bool :=
  match Map_get field m with
  | Some _ => true
  | None => false
  end.

Fixpoint Map_set (field : string) (item : ValidatorModelItem)
  (m : list (string * ValidatorModelItem)) : list (string * ValidatorModelItem) :=
  match m with
  | [] => [(field, item)]
  | (k, old) :: rest =>
      if String.eqb k field then (k, item) :: rest else (k, old) :: Map_set field item rest
  end.

Fixpoint Map_update (field : string) (f : ValidatorModelItem -> ValidatorModelItem)
  (m : list (string * ValidatorModelItem)) : list (string * ValidatorModelItem) :=
  match m with
  | [] => []
  | (k, item) :: rest =>
      if String.eqb k field then (k, f item) :: rest else (k, item) :: Map_update field f rest
  end.

(** The keys that [for (const field in clone)] visits. *)
Definition enumerate (clone : any) : list (string * any) :=
  match clone with
  | VObject properties => properties
  | VArray elements => imap (fun i v => (pretty i, v)) elements
  | _ => []
  end.

(** [typeof v === "object"] *)
Definition typeof_object (v : any) : bool :=
  match v with
  | VNull | VDate _ | VArray _ | VObject _ => true
  | _ => false
  end.

Definition emptyValidator : FormValidator :=
  {| formObject := []; formObjectErrors := ∅; customValidators := [] |}.

(** [new FormValidator(formObject)] *)
Definition FormValidator_new (input : any) : FormValidator :=
  if negb (isEmpty input) && typeof_object input then
    let clone := deepCopy input in
    {| formObject :=
         fold_left (fun m '(field, v) => Map_set field (ValidatorModelItem_new field v) m)
           (enumerate clone) [];
       formObjectErrors := ∅;
       customValidators := [] |}
  else emptyValidator.

(** The own properties of [availableValidationTypes]. *)
Definition availableValidationTypes : list string :=
  ["required"; "isDate"; "noWhitespace"; "dateRange"; "textLength";
   "valueRange"; "validEmail"; "strongPassword"; "isPhoneNumber"].

(** [availableValidationTypes.hasOwnProperty(type)] *)
Definition isValidType (type : ValidationType) : bool :=
  existsb (String.eqb type) availableValidationTypes.

Definition pushValidation (type : ValidationType) (item : ValidatorModelItem)
  : ValidatorModelItem :=
  {| name := name item; value := value item; specs := specs item;
     validations := validations item ++ [type] |}.

Definition mergeSpecs (sp : ValidationSpecs) (item : ValidatorModelItem)
  : ValidatorModelItem :=
  {| name := name item; value := value item; specs := spread (specs item) sp;
     validations := validations item |}.

(** The callback of [fields.map] in [addValidation]. *)
Definition addValidationTo (type : ValidationType) (sp : option ValidationSpecs)
  (m : list (string * ValidatorModelItem)) (field : string)
  : list (string * ValidatorModelItem) :=
  if Map_has field m then
    let m1 := Map_update field (pushValidation type) m in
    match sp with
    | Some sp' =>
        if negb (isEmpty sp) then Map_update field (mergeSpecs sp') m1 else m1
    | None => m1
    end
  else m.

(** [addValidation(fields, type, specs)]: [fields] is an array and [type]
    a string by their types, which leaves of the guard the truthiness of
    [type] and [isValidType]; [None] is an omitted [specs]. *)
Definition addValidation (flds : list string) (type : ValidationType)
  (sp : option ValidationSpecs) (this : FormValidator) : FormValidator :=
  if string_truthy type && isValidType type then
    if (0 <? length flds)%nat then
      {| formObject := fold_left (addValidationTo type sp) flds (formObject this);
         formObjectErrors := formObjectErrors this;
         customValidators := customValidators this |}
    else this
  else this.

(** [addCustomValidator(fields, errorFields, validator)]: of the guard,
    the two [length] tests are left for arrays and a function. *)
Definition addCustomValidator (flds errFlds : list string)
  (v : list any -> option ModelFieldError) (this : FormValidator) : FormValidator :=
  if (0 <? length flds)%nat && (0 <? length errFlds)%nat then
    {| formObject := formObject this;
       formObjectErrors := formObjectErrors this;
       customValidators :=
         customValidators this
           ++ [{| fields := flds; errorFields := errFlds; validator := v |}] |}
  else this.

(** ** Reading the error object

    [formObjectErrors] starts as the plain object [{}], whose prototype is
    [Object.prototype].  Reading [formObjectErrors[key]] gives the entry
    of [key] when there is one, and otherwise what the object inherits
    under that name.  Assigning [formObjectErrors[key] = fieldError]
    creates or replaces the entry, except for the key "__proto__": that
    assignment runs the setter inherited from [Object.prototype], which
    makes the assigned error object the prototype of [formObjectErrors]
    and creates no entry.  The map keeps that prototype under the key
    "__proto__", which no entry can have, so that every assignment is an
    insertion. *)

(** The names of the members of [Object.prototype]. *)
Definition objectPrototypeNames : list string :=
  ["constructor"; "__defineGetter__"; "__defineSetter__"; "hasOwnProperty";
   "__lookupGetter__"; "__lookupSetter__"; "isPrototypeOf";
   "propertyIsEnumerable"; "toString"; "valueOf"; "__proto__"; "toLocaleString"].

(** What reading a property of the error object gives: [undefined]; an
    error object (an entry, or under "__proto__" the error object that was
    made the prototype); the [errorCode] or the [specs] of an error object
    that is the prototype; or a member of [Object.prototype] (a function,
    and under "__proto__" [Object.prototype] itself). *)
Inductive member : Type :=
| NoMember
| Entry (fe : ModelFieldError)
| InheritedCode (code : ValidationErrors.t)
| InheritedSpecs (sp : ValidationSpecs)
| Builtin (memberName : string).

Definition fromObjectPrototype (key : string) : member :=
  if existsb (String.eqb key) objectPrototypeNames then Builtin key else NoMember.

(** [formObjectErrors[key]] *)
Definition readMember (key : string) (errors : ModelErrors) : member :=
  match errors !! key with
  | Some fe => Entry fe
  | None =>
      match errors !! "__proto__" with
      | Some proto =>
          if String.eqb key "errorCode" then InheritedCode (errorCode proto)
          else if String.eqb key "specs" then
            match errorSpecs proto with
            | Some sp => InheritedSpecs sp
            | None => fromObjectPrototype key
            end
          else fromObjectPrototype key
      | None => fromObjectPrototype key
      end
  end.

(** Truthiness of what was read: error objects, specs objects and
    functions are objects, and no error code is the empty string. *)
Definition member_truthy (m : member) : bool :=
  match m with
  | NoMember => false
  | _ => true
  end.

(** [getErrors()] returns the error object: its entries, and under
    "__proto__" its prototype when an error object was made one. *)
Definition getErrors (this : FormValidator) : ModelErrors := formObjectErrors this.

(** [getError(name)] returns [formObjectErrors[name]]. *)
Definition getError (n : string) (this : FormValidator) : member :=
  readMember n (formObjectErrors this).

(** The property key that [formObjectErrors[item.name]] addresses: an
    [undefined] name is converted to the string "undefined". *)
Definition errorKey (item : ValidatorModelItem) : string :=
  match name item with
  | Some n => n
  | None => "undefined"
  end.

(** The echoed bound: [{ minDate: specs.minDate }] and the like. *)
Definition minDateSpecs (d : Date) : ValidationSpecs :=
  {| minLength := None; maxLength := None; minValue := None;
     maxValue := None; minDate := Some d; maxDate := None |}.
Definition maxDateSpecs (d : Date) : ValidationSpecs :=
  {| minLength := None; maxLength := None; minValue := None;
     maxValue := None; minDate := None; maxDate := Some d |}.
Definition minLengthSpecs (n : number) : ValidationSpecs :=
  {| minLength := Some n; maxLength := None; minValue := None;
     maxValue := None; minDate := None; maxDate := None |}.
Definition maxLengthSpecs (n : number) : ValidationSpecs :=
  {| minLength := None; maxLength := Some n; minValue := None;
     maxValue := None; minDate := None; maxDate := None |}.
Definition minValueSpecs (n : number) : ValidationSpecs :=
  {| minLength := None; maxLength := None; minValue := Some n;
     maxValue := None; minDate := None; maxDate := None |}.
Definition maxValueSpecs (n : number) : ValidationSpecs :=
  {| minLength := None; maxLength := None; minValue := None;
     maxValue := Some n; minDate := None; maxDate := None |}.

(** [this.formObjectErrors[key]] as a condition. *)
Definition hasError (key : string) (errors : ModelErrors) : bool :=
  member_truthy (readMember key errors).

Section Evaluation.
Context `{Collaborators}.

Import ValidationErrors.

(** [validateField(value, type, specs)].  In the [noWhitespace] case a
    truthy value that is not a string has no [trim] method, and the call
    raises a [TypeError]. *)
Definition validateField (v : any) (type : ValidationType) (sp : ValidationSpecs)
  : completion (option ModelFieldError) :=
  if String.eqb type "required" then
    Normal (if isEmpty v then Some (codeOnly empty) else None)
  else if String.eqb type "isDate" then
    Normal (match v with
            | VDate _ => None
            | _ => Some (codeOnly invalidDate)
            end)
  else if String.eqb type "noWhitespace" then
    if truthy v then
      match v with
      | VString s =>
          Normal (if String.eqb (trim s) EmptyString
                  then Some (codeOnly isWhitespace) else None)
      | _ => Abrupt TypeError
      end
    else Normal None
  else if String.eqb type "dateRange" then
    match v with
    | VDate d =>
        let fieldError : option ModelFieldError := None in
        let fieldError :=
          match minDate sp with
          | Some m =>
              if isBefore (clearTime d) (clearTime m)
              then Some (codeWith beforeMinDate (minDateSpecs m)) else None
          | None => fieldError
          end in
        let fieldError :=
          match fieldError, maxDate sp with
          | None, Some m =>
              if isAfter (clearTime d) (clearTime m)
              then Some (codeWith afterMaxDate (maxDateSpecs m)) else None
          | _, _ => fieldError
          end in
        Normal fieldError
    | _ => Normal (Some (codeOnly invalidDate))
    end
  else if String.eqb type "textLength" then
    match v with
    | VString s =>
        let fieldError : option ModelFieldError := None in
        let fieldError :=
          match minLength sp with
          | Some m =>
              if number_truthy m then
                if number_lt (string_length s) m
                then Some (codeWith lessThanMinLength (minLengthSpecs m)) else None
              else fieldError
          | None => fieldError
          end in
        let fieldError :=
          match fieldError, maxLength sp with
          | None, Some m =>
              if number_truthy m then
                if number_gt (string_length s) m
                then Some (codeWith moreThanMaxLength (maxLengthSpecs m)) else None
              else fieldError
          | _, _ => fieldError
          end in
        Normal fieldError
    | _ => Normal (Some (codeOnly invalidInput))
    end
  else if String.eqb type "valueRange" then
    match v with
    | VNumber n =>
        let fieldError : option ModelFieldError := None in
        let fieldError :=
          match minValue sp with
          | Some m =>
              if number_truthy m then
                if number_lt n m
                then Some (codeWith lessThanMinValue (minValueSpecs m)) else None
              else fieldError
          | None => fieldError
          end in
        let fieldError :=
          match fieldError, maxValue sp with
          | None, Some m =>
              if number_truthy m then
                if number_gt n m
                then Some (codeWith moreThanMaxValue (maxValueSpecs m)) else None
              else fieldError
          | _, _ => fieldError
          end in
        Normal fieldError
    | _ => Normal (Some (codeOnly invalidInput))
    end
  else if String.eqb type "validEmail" then
    Normal (if isEmail v then None else Some (codeOnly invalidEmail))
  else if String.eqb type "strongPassword" then
    Normal (if isStrongPassword v then None else Some (codeOnly weakPassword))
  else if String.eqb type "isPhoneNumber" then
    Normal (if isPhoneNumber v then None else Some (codeOnly invalidPhoneNumber))
  else Normal None.

(** The [do ... while] loop of [validate]: [rest] is what is left of
    [item.validations] from index [i] on, [errors] the current
    [formObjectErrors].  The loop goes on while rules are left and the
    field has an entry in [formObjectErrors]. *)
Fixpoint doWhile (item : ValidatorModelItem) (rest : list ValidationType)
  (errors : ModelErrors) : ModelErrors * completion unit :=
  match rest with
  | [] => (errors, Normal tt)
  | type :: rest' =>
      match validateField (value item) type (specs item) with
      | Abrupt e => (errors, Abrupt e)
      | Normal fieldError =>
          let errors' :=
            match fieldError with
            | Some fe =>
                if negb (isEmpty fieldError)
                then <[errorKey item := fe]> errors else errors
            | None => errors
            end in
          if negb (bool_decide (rest' = [])) && hasError (errorKey item) errors'
          then doWhile item rest' errors'
          else (errors', Normal tt)
      end
  end.

(** The callback of [formObject.forEach] in [validate]. *)
Definition validateItem (item : ValidatorModelItem) (errors : ModelErrors)
  : ModelErrors * completion unit :=
  if (0 <? length (validations item))%nat
  then doWhile item (validations item) errors
  else (errors, Normal tt).

Fixpoint forEach (items : list (string * ValidatorModelItem)) (errors : ModelErrors)
  : ModelErrors * completion unit :=
  match items with
  | [] => (errors, Normal tt)
  | (_, item) :: rest =>
      match validateItem item errors with
      | (errors', Normal _) => forEach rest errors'
      | (errors', Abrupt e) => (errors', Abrupt e)
      end
  end.

(** [validate()]: the validator as the call leaves it, and how it leaves. *)
Definition validate (this : FormValidator) : FormValidator * completion unit :=
  let '(errors, c) := forEach (formObject this) (formObjectErrors this) in
  ({| formObject := formObject this;
      formObjectErrors := errors;
      customValidators := customValidators this |}, c).
End Evaluation.

(** Modelled from the spec: concrete collaborators, used to run the
    validator on examples.  [clearTime] truncates a time value to the start
    of its day; the three format tests are the crudest ones that fit the
    spec's words (an address has an [@], a phone number is made of digits,
    a strong password has eight characters or more). *)
Definition msPerDay : Z := 86400000.

Definition clearTimeUTC (d : Date) : Date := d - d mod msPerDay.

Fixpoint containsAt (s : string) : bool :=
  match s with
  | EmptyString => false
  | String a rest => (nat_of_ascii a =? 64)%nat || containsAt rest
  end.

Fixpoint allDigits (s : string) : bool :=
  match s with
  | EmptyString => true
  | String a rest =>
      (48 <=? nat_of_ascii a)%nat && (nat_of_ascii a <=? 57)%nat && allDigits rest
  end.

Definition sampleCollaborators : Collaborators :=
  {| isEmail := fun v => match v with VString s => containsAt s | _ => false end;
     isStrongPassword := fun v =>
       match v with VString s => (8 <=? String.length s)%nat | _ => false end;
     isPhoneNumber := fun v =>
       match v with VString s => string_truthy s && allDigits s | _ => false end;
     clearTime := clearTimeUTC |}.

(** ** Notions used by the statements *)

(** The keys of [formObjectErrors] that the fields of a validator report
    under, in the order of [formObject]. *)
Definition errorKeys (this : FormValidator) : list string :=
  map (fun entry => errorKey entry.2) (formObject this).

(** Every item carries the key it is stored under as its name: what the
    constructor builds for every non-empty field name. *)
Definition wellNamed (this : FormValidator) : Prop :=
  Forall (fun entry => name entry.2 = Some entry.1) (formObject this).

(** What one registration of [type] with [sp] does to a known field. *)
Definition register (type : ValidationType) (sp : option ValidationSpecs)
  (item : ValidatorModelItem) : ValidatorModelItem :=
  match sp with
  | Some sp' =>
      if negb (isEmpty sp) then mergeSpecs sp' (pushValidation type item)
      else pushValidation type item
  | None => pushValidation type item
  end.

(** [specs] without its lower bound. *)
Definition withoutMinValue (sp : ValidationSpecs) : ValidationSpecs :=
  {| minLength := minLength sp; maxLength := maxLength sp; minValue := None;
     maxValue := maxValue sp; minDate := minDate sp; maxDate := maxDate sp |}.

Definition withoutMinLength (sp : ValidationSpecs) : ValidationSpecs :=
  {| minLength := None; maxLength := maxLength sp; minValue := minValue sp;
     maxValue := maxValue sp; minDate := minDate sp; maxDate := maxDate sp |}.

(** Whether [formObjectErrors[key]] is truthy without an entry of [key]:
    by what the object inherits under that name. *)
Definition inherits (key : string) (errors : ModelErrors) : bool :=
  hasError key (delete key errors).

(** The keys under which the error object never inherits anything: the
    names that are neither a member of [Object.prototype] nor a property
    of an error object. *)
Definition plainKey (key : string) : bool :=
  negb (existsb (String.eqb key) ("errorCode" :: "specs" :: objectPrototypeNames)).

(** [formObjectErrors] with the entry of [key] set to [entry]; entries are
    never deleted, so [None] leaves the object as it is. *)
Definition putEntry (key : string) (entry : option ModelFieldError)
  (errors : ModelErrors) : ModelErrors :=
  match entry with
  | Some fe => <[key := fe]> errors
  | None => errors
  end.

Section EntryView.
Context `{Collaborators}.

(** The rule [type] yields no error on the stored value of [item]. *)
Definition passes (item : ValidatorModelItem) (type : ValidationType) : Prop :=
  validateField (value item) type (specs item) = Normal None.

(** The rule [type] yields the error [fe] on the stored value of [item]. *)
Definition failsWith (item : ValidatorModelItem) (type : ValidationType)
  (fe : ModelFieldError) : Prop :=
  validateField (value item) type (specs item) = Normal (Some fe).

(** The loop of [validate] seen from the one entry of [formObjectErrors]
    it reads and writes; [sticky] tells whether the condition of the loop
    holds without an entry, by inheritance. *)
Fixpoint entryLoop (item : ValidatorModelItem) (rest : list ValidationType)
  (sticky : bool) (entry : option ModelFieldError)
  : option ModelFieldError * completion unit :=
  match rest with
  | [] => (entry, Normal tt)
  | type :: rest' =>
      match validateField (value item) type (specs item) with
      | Abrupt e => (entry, Abrupt e)
      | Normal fieldError =>
          let entry' := spreadKey entry fieldError in
          if negb (bool_decide (rest' = []))
             && (bool_decide (is_Some entry') || sticky)
          then entryLoop item rest' sticky entry'
          else (entry', Normal tt)
      end
  end.

(** The claim that a pass clears the entry of a field whose rules all
    pass, at one validator and field. *)
Definition clearsWhenPassing (this : FormValidator) (field : string) : Prop :=
  forall item,
    Map_get field (formObject this) = Some item ->
    validations item <> [] ->
    Forall (passes item) (validations item) ->
    formObjectErrors (validate this).1 !! errorKey item = None.
End EntryView.

(** The six properties of a [ValidationSpecs] object, and the value of
    one of them ([None] when the object does not have it). *)
Inductive SpecKey : Type :=
| KminLength | KmaxLength | KminValue | KmaxValue | KminDate | KmaxDate.

Definition property (key : SpecKey) (sp : ValidationSpecs) : option any :=
  match key with
  | KminLength => VNumber <$> minLength sp
  | KmaxLength => VNumber <$> maxLength sp
  | KminValue => VNumber <$> minValue sp
  | KmaxValue => VNumber <$> maxValue sp
  | KminDate => VDate <$> minDate sp
  | KmaxDate => VDate <$> maxDate sp
  end.

(** [{ minLength: 3, maxLength: 10 }] and what enforcing both bounds on a
    string means. *)
Definition length3to10 : ValidationSpecs :=
  {| minLength := Some (Num 3); maxLength := Some (Num 10); minValue := None;
     maxValue := None; minDate := None; maxDate := None |}.


(** ** Validators used as examples *)

(** [new FormValidator({a: "ab"}).addValidation(["a"], "textLength",
    {minLength: 3}).validate().addValidation(["a"], "textLength",
    {minLength: 1})]: the field [a] carries the error of the first pass,
    and both of its rules pass on the merged specs. *)
Definition relaxedValidator `{Collaborators} : FormValidator :=
  addValidation ["a"] "textLength" (Some (minLengthSpecs (Num 1)))
    (validate
       (addValidation ["a"] "textLength" (Some (minLengthSpecs (Num 3)))
          (FormValidator_new (VObject [("a", VString "ab")])))).1.

(** [new FormValidator({email: "bad", age: 15, when: <a date>})] with one
    rule on each field. *)
Definition sampleValidator : FormValidator :=
  addValidation ["when"] "isDate" None
    (addValidation ["age"] "valueRange" (Some (minValueSpecs (Num 18)))
       (addValidation ["email"; "nickname"] "validEmail" None
          (FormValidator_new
             (VObject [("email", VString "bad"); ("age", VNumber (Num 15));
                       ("when", VDate 1641600000000)])))).

(** ** Further notions *)

(** Every character of [s] is white space. *)
Fixpoint allWhiteSpace (s : string) : bool :=
  match s with
  | EmptyString => true
  | String a rest => isWhiteSpace a && allWhiteSpace rest
  end.

(** Every rule that a field holds is one of the nine kinds. *)
Definition validKinds (this : FormValidator) : Prop :=
  Forall (fun entry =>
            Forall (fun type => In type availableValidationTypes) (validations entry.2))
    (formObject this).

(** A field as the constructor stores it. *)
Definition freshField (property : string * any) : string * ValidatorModelItem :=
  (property.1, ValidatorModelItem_new property.1 property.2).

(** The specs of a field after at least one registration with [sp]. *)
Definition specsAfter (sp : option ValidationSpecs) (old : ValidationSpecs)
  : ValidationSpecs :=
  match sp with
  | Some sp' => if isEmpty sp then old else spread old sp'
  | None => old
  end.

(** ** The table of command-line options ([customOptions.ts]) *)

Module CustomOptions.

(** The members of the enum [OptionName]. *)
Definition baseUrl : string := "--baseUrl".
Definition baseUrlShort : string := "-u".
Definition sebTemplate : string := "--sebTemplate".
Definition interceptorPath : string := "--interceptorPath".
Definition interceptorPathShort : string := "-ip".
Definition interceptorName : string := "--interceptorName".
Definition interceptorNameShort : string := "-in".
Definition configPath : string := "--configPath".
Definition configPathShort : string := "-cp".
Definition configName : string := "--configName".
Definition configNameShort : string := "-cn".

(** [CustomOptionType]; [flags] is its property [option], the list of the
    spellings of the option. *)
Record CustomOptionType : Type := {
  flags : list string;
  description : string;
  mappingName : option string;
  dependedOption : option (list string);
  errorMessage : option string;
  noValue : option bool
}.

(** The template literal shared by the error messages. *)
Definition alongWith (a b : string) : string :=
  String.append a (String.append " must be defined along with " b).

Definition options : list CustomOptionType :=
  [ {| flags := [baseUrlShort; baseUrl];
       description := "baseUrl";
       mappingName := Some "baseUrl";
       dependedOption := None; errorMessage := None; noValue := None |};
    {| flags := [sebTemplate];
       description := "use seb template";
       mappingName := None;
       dependedOption := None; errorMessage := None; noValue := Some true |};
    {| flags := [interceptorPathShort; interceptorPath];
       description := "path of axios interceptor";
       mappingName := Some "interceptorPath";
       dependedOption := Some [interceptorName; interceptorNameShort];
       errorMessage := Some (alongWith interceptorPathShort interceptorNameShort);
       noValue := None |};
    {| flags := [interceptorNameShort; interceptorName];
       description := "name of axios interceptor";
       mappingName := Some "interceptorName";
       dependedOption := Some [interceptorPath; interceptorPathShort];
       errorMessage := Some (alongWith interceptorPathShort interceptorNameShort);
       noValue := None |};
    {| flags := [configPathShort; configPath];
       description := "path of axios config";
       mappingName := Some "configPath";
       dependedOption := Some [configName; configNameShort];
       errorMessage := Some (alongWith configPathShort configNameShort);
       noValue := None |};
    {| flags := [configNameShort; configName];
       description := "name of axios config";
       mappingName := Some "configName";
       dependedOption := Some [configPath; configPathShort];
       errorMessage := Some (alongWith configPathShort configNameShort);
       noValue := None |} ].

(** The flags an option depends on (none when the property is absent). *)
Definition dependencies (o : CustomOptionType) : list string :=
  match dependedOption o with
  | Some l => l
  | None => []
  end.

End CustomOptions.

(** * Properties *)

Section Properties.
Context `{Collaborators}.

Implicit Types (errors : ModelErrors) (item : ValidatorModelItem).

Lemma putEntry_lookup key errors : putEntry key (errors !! key) errors = errors.
Proof.
  unfold putEntry. destruct (errors !! key) eqn:E; [|done].
  by apply insert_id.
Qed.

Lemma putEntry_lookup_ne key key' entry errors :
  key <> key' -> putEntry key entry errors !! key' = errors !! key'.
Proof.
  intros Hne. destruct entry; simpl; [|done]. by rewrite lookup_insert_ne.
Qed.

Lemma putEntry_lookup_eq key fe errors :
  putEntry key (Some fe) errors !! key = Some fe.
Proof. simpl. by rewrite lookup_insert_eq. Qed.

Lemma lookup_putEntry key fieldError errors :
  putEntry key fieldError errors !! key = spreadKey (errors !! key) fieldError.
Proof.
  destruct fieldError as [fe|]; simpl; [|done]. by rewrite lookup_insert_eq.
Qed.

Lemma putEntry_putEntry key fieldError q errors :
  putEntry key (Some q) (putEntry key fieldError errors)
  = putEntry key (Some q) errors.
Proof.
  destruct fieldError as [fe|]; simpl; [|done]. by rewrite insert_insert_eq.
Qed.

(** *** The condition of the loop *)

(** The condition holds by the entry of the key or by inheritance. *)
Lemma hasError_split key errors :
  hasError key errors = bool_decide (is_Some (errors !! key)) || inherits key errors.
Proof.
  unfold inherits, hasError, readMember. destruct (errors !! key) as [fe|] eqn:E.
  - by rewrite bool_decide_eq_true_2 by eauto.
  - rewrite (bool_decide_eq_false_2 _ is_Some_None). simpl.
    by rewrite delete_id, E.
Qed.

(** Writing the entry of a key does not change what is inherited under
    that key. *)
Lemma inherits_putEntry key fieldError errors :
  inherits key (putEntry key fieldError errors) = inherits key errors.
Proof.
  destruct fieldError as [fe|]; simpl; [|done].
  unfold inherits. by rewrite delete_insert_eq.
Qed.

Lemma hasError_putEntry key fieldError errors :
  hasError key (putEntry key fieldError errors)
  = bool_decide (is_Some (spreadKey (errors !! key) fieldError))
    || inherits key errors.
Proof. by rewrite hasError_split, lookup_putEntry, inherits_putEntry. Qed.

Lemma hasError_insert key fe errors : hasError key (<[key := fe]> errors) = true.
Proof. unfold hasError, readMember. by rewrite lookup_insert_eq. Qed.

(** Nothing is inherited under a plain key. *)
Lemma inherits_plainKey key errors : plainKey key = true -> inherits key errors = false.
Proof.
  unfold plainKey. rewrite negb_true_iff. cbn [existsb].
  rewrite !orb_false_iff. intros (Hcode & Hspecs & Hnames).
  unfold inherits, hasError, readMember, fromObjectPrototype.
  rewrite lookup_delete_eq, Hcode, Hspecs, Hnames.
  by destruct (delete key errors !! "__proto__").
Qed.

(** *** The loop *)

(** Once the field has an entry it keeps one to the end of the loop. *)
Lemma entryLoop_Some item rest sticky p :
  exists q, (entryLoop item rest sticky (Some p)).1 = Some q.
Proof.
  revert p. induction rest as [|type rest IH]; intros p; simpl; [eauto|].
  destruct (validateField _ _ _) as [[fe|]|e]; simpl; eauto;
    destruct (_ && _); simpl; eauto.
Qed.

Lemma doWhile_cons item type rest errors :
  doWhile item (type :: rest) errors
  = match validateField (value item) type (specs item) with
    | Abrupt e => (errors, Abrupt e)
    | Normal fieldError =>
        let errors' := putEntry (errorKey item) fieldError errors in
        if negb (bool_decide (rest = [])) && hasError (errorKey item) errors'
        then doWhile item rest errors'
        else (errors', Normal tt)
    end.
Proof. simpl. by destruct (validateField _ _ _) as [[fe|]|e]. Qed.

Lemma entryLoop_cons item type rest sticky entry :
  entryLoop item (type :: rest) sticky entry
  = match validateField (value item) type (specs item) with
    | Abrupt e => (entry, Abrupt e)
    | Normal fieldError =>
        let entry' := spreadKey entry fieldError in
        if negb (bool_decide (rest = []))
           && (bool_decide (is_Some entry') || sticky)
        then entryLoop item rest sticky entry'
        else (entry', Normal tt)
    end.
Proof. reflexivity. Qed.

(** [doWhile] reads and writes the one entry of its field, and what is
    inherited under the key of the field. *)
Lemma doWhile_entryLoop item rest errors :
  doWhile item rest errors
  = (putEntry (errorKey item)
       (entryLoop item rest (inherits (errorKey item) errors)
          (errors !! errorKey item)).1 errors,
     (entryLoop item rest (inherits (errorKey item) errors)
        (errors !! errorKey item)).2).
Proof.
  revert errors. induction rest as [|type rest IH]; intros errors.
  - simpl. by rewrite putEntry_lookup.
  - rewrite doWhile_cons, entryLoop_cons.
    destruct (validateField _ _ _) as [fieldError|e]; simpl;
      [|by rewrite putEntry_lookup].
    rewrite hasError_putEntry.
    destruct (negb (bool_decide (rest = [])) && _) eqn:Hgo.
    + rewrite IH, lookup_putEntry, inherits_putEntry.
      destruct fieldError as [fe|]; [|done]. cbn [spreadKey].
      destruct (entryLoop_Some item rest (inherits (errorKey item) errors) fe)
        as [r Hr].
      rewrite Hr. by rewrite putEntry_putEntry.
    + simpl. destruct fieldError as [fe|]; simpl; [done|].
      by rewrite putEntry_lookup.
Qed.

(** When every rule passes the loop writes nothing. *)
Lemma entryLoop_all_pass item rest sticky entry :
  Forall (passes item) rest -> entryLoop item rest sticky entry = (entry, Normal tt).
Proof.
  induction 1 as [|type rest Hp _ IH]; [done|].
  rewrite entryLoop_cons, Hp. simpl.
  destruct (_ && _); [apply IH|done].
Qed.

Lemma validateItem_doWhile item errors :
  validateItem item errors = doWhile item (validations item) errors.
Proof.
  unfold validateItem. by destruct (validations item).
Qed.

Lemma validateItem_entryLoop item errors :
  validateItem item errors
  = (putEntry (errorKey item)
       (entryLoop item (validations item) (inherits (errorKey item) errors)
          (errors !! errorKey item)).1 errors,
     (entryLoop item (validations item) (inherits (errorKey item) errors)
        (errors !! errorKey item)).2).
Proof. rewrite validateItem_doWhile. apply doWhile_entryLoop. Qed.

Lemma validateItem_lookup_ne item errors key :
  errorKey item <> key -> (validateItem item errors).1 !! key = errors !! key.
Proof.
  intros Hne. rewrite validateItem_entryLoop. simpl.
  by apply putEntry_lookup_ne.
Qed.

Lemma validateItem_lookup_eq item errors :
  (validateItem item errors).1 !! errorKey item
  = (entryLoop item (validations item) (inherits (errorKey item) errors)
       (errors !! errorKey item)).1.
Proof.
  rewrite validateItem_entryLoop. simpl.
  destruct (entryLoop _ _ _ _).1 as [q|] eqn:Hq; simpl.
  - by rewrite lookup_insert_eq.
  - destruct (errors !! errorKey item) as [p|] eqn:Hp; [|done].
    destruct (entryLoop_Some item (validations item)
                (inherits (errorKey item) errors) p) as [r Hr]. congruence.
Qed.

Lemma forEach_cons field item rest errors :
  forEach ((field, item) :: rest) errors
  = match (validateItem item errors).2 with
    | Normal _ => forEach rest (validateItem item errors).1
    | Abrupt e => ((validateItem item errors).1, Abrupt e)
    end.
Proof. simpl. by destruct (validateItem item errors) as [errors' [[]|e]]. Qed.

(** [validate] only touches the entries of the fields it holds. *)
Lemma forEach_lookup_other items errors key :
  key ∉ map (fun entry => errorKey entry.2) items ->
  (forEach items errors).1 !! key = errors !! key.
Proof.
  revert errors. induction items as [|[field item] rest IH]; intros errors Hk; [done|].
  rewrite fmap_cons, not_elem_of_cons in Hk. destruct Hk as [Hne Hk].
  rewrite forEach_cons.
  destruct (validateItem item errors).2 eqn:Hc; simpl.
  - rewrite IH by done. by apply validateItem_lookup_ne.
  - by apply validateItem_lookup_ne.
Qed.

(** The entry of a field after a pass that returns: what its own loop
    leaves, run where the pass reaches the field. *)
Lemma forEach_lookup_field items errors field item :
  NoDup (map (fun entry => errorKey entry.2) items) ->
  (field, item) ∈ items ->
  (forEach items errors).2 = Normal tt ->
  exists sticky,
    (forEach items errors).1 !! errorKey item
    = (entryLoop item (validations item) sticky (errors !! errorKey item)).1.
Proof.
  revert errors. induction items as [|[field' item'] rest IH]; intros errors Hnd Hin Hret.
  { by apply elem_of_nil in Hin. }
  rewrite fmap_cons in Hnd. apply NoDup_cons in Hnd as [Hfresh Hnd]. simpl in Hfresh.
  rewrite forEach_cons in Hret |- *.
  destruct (validateItem item' errors).2 as [[]|e] eqn:Hc; [|done].
  apply elem_of_cons in Hin as [Heq|Hin].
  - injection Heq as <- <-. rewrite forEach_lookup_other by done.
    eexists. apply validateItem_lookup_eq.
  - destruct (IH _ Hnd Hin Hret) as [sticky Hl]. exists sticky. rewrite Hl.
    rewrite validateItem_lookup_ne; [done|].
    intros Heq. apply Hfresh. rewrite Heq.
    apply (list_elem_of_fmap_2 (fun entry => errorKey entry.2) _ _ Hin).
Qed.

(** The entry of a field after any pass is the one before it or the
    one its own loop leaves. *)
Lemma forEach_lookup_field_cases items errors field item :
  NoDup (map (fun entry => errorKey entry.2) items) ->
  (field, item) ∈ items ->
  (forEach items errors).1 !! errorKey item = errors !! errorKey item
  \/ exists errors',
       (forEach items errors).1 !! errorKey item
       = (entryLoop item (validations item) (inherits (errorKey item) errors')
            (errors !! errorKey item)).1.
Proof.
  revert errors. induction items as [|[field' item'] rest IH]; intros errors Hnd Hin.
  { by apply elem_of_nil in Hin. }
  rewrite fmap_cons in Hnd. apply NoDup_cons in Hnd as [Hfresh Hnd]. simpl in Hfresh.
  rewrite forEach_cons.
  apply elem_of_cons in Hin as [Heq|Hin].
  - injection Heq as <- <-. right. exists errors.
    destruct (validateItem item errors).2 as [[]|e] eqn:Hc; simpl.
    + rewrite forEach_lookup_other by done. apply validateItem_lookup_eq.
    + apply validateItem_lookup_eq.
  - assert (errorKey item' <> errorKey item) as Hne.
    { intros Heq. apply Hfresh. rewrite Heq.
      apply (list_elem_of_fmap_2 (fun entry => errorKey entry.2) _ _ Hin). }
    destruct (validateItem item' errors).2 as [[]|e] eqn:Hc; simpl.
    + rewrite <- (validateItem_lookup_ne item' errors (errorKey item)) by done.
      by apply IH.
    + left. by apply validateItem_lookup_ne.
Qed.

(** A pass leaves the entry of a key as it was when all the rules of the
    fields that report under the key pass. *)
Lemma forEach_all_pass items errors key :
  (forall field item,
      (field, item) ∈ items -> errorKey item = key ->
      Forall (passes item) (validations item)) ->
  (forEach items errors).1 !! key = errors !! key.
Proof.
  revert errors. induction items as [|[field item] rest IH]; intros errors Hpass; [done|].
  assert ((validateItem item errors).1 !! key = errors !! key) as Hitem.
  { destruct (decide (errorKey item = key)) as [Heq|Hne];
      [|by apply validateItem_lookup_ne].
    subst key. rewrite validateItem_lookup_eq, entryLoop_all_pass; [done|].
    apply (Hpass field item); [|done]. apply elem_of_cons. by left. }
  rewrite forEach_cons. destruct (validateItem item errors).2; simpl; [|done].
  rewrite IH; [done|]. intros field' item' Hin. apply (Hpass field').
  apply elem_of_cons. by right.
Qed.

Lemma validate_forEach this :
  validate this
  = ({| formObject := formObject this;
        formObjectErrors := (forEach (formObject this) (formObjectErrors this)).1;
        customValidators := customValidators this |},
     (forEach (formObject this) (formObjectErrors this)).2).
Proof. unfold validate. by destruct (forEach _ _). Qed.

(** *** The map of fields *)

Implicit Types (m : list (string * ValidatorModelItem)).

Lemma Map_get_Some_elem field item m :
  Map_get field m = Some item -> (field, item) ∈ m.
Proof.
  induction m as [|[k it] rest IH]; simpl; [done|].
  destruct (String.eqb_spec k field) as [->|Hne]; intros Hg.
  - simplify_eq. apply elem_of_cons. by left.
  - apply elem_of_cons. right. by apply IH.
Qed.

Lemma Map_get_None field m : Map_get field m = None <-> field ∉ map fst m.
Proof.
  induction m as [|[k it] rest IH]; simpl.
  - split; [intros _; apply not_elem_of_nil|done].
  - rewrite not_elem_of_cons. destruct (String.eqb_spec k field) as [->|Hne].
    + split; [done|]. intros [Hne _]. done.
    + rewrite IH. split; [intros Hn; split; [done|apply Hn]|intros [_ Hn]; apply Hn].
Qed.

Lemma Map_update_keys field f m : map fst (Map_update field f m) = map fst m.
Proof.
  induction m as [|[k it] rest IH]; simpl; [done|].
  destruct (String.eqb k field); simpl; [done|]. by rewrite IH.
Qed.

Lemma Map_get_update field field' f m :
  Map_get field' (Map_update field f m)
  = if decide (field = field') then f <$> Map_get field' m else Map_get field' m.
Proof.
  induction m as [|[k it] rest IH]; simpl.
  - by case_decide.
  - destruct (String.eqb_spec k field) as [->|Hne]; simpl.
    + destruct (String.eqb_spec field field') as [->|Hne'].
      * by rewrite decide_True.
      * by rewrite decide_False.
    + destruct (String.eqb_spec k field') as [->|Hne']; [|apply IH].
      by rewrite decide_False.
Qed.

Lemma Map_update_unknown field f m :
  Map_get field m = None -> Map_update field f m = m.
Proof.
  induction m as [|[k it] rest IH]; simpl; [done|].
  destruct (String.eqb k field); [done|]. intros Hg. by rewrite IH.
Qed.

Lemma Map_update_update field f g m :
  Map_update field g (Map_update field f m) = Map_update field (g ∘ f) m.
Proof.
  induction m as [|[k it] rest IH]; simpl; [done|].
  destruct (String.eqb k field) eqn:E; simpl; rewrite E; [done|].
  by rewrite IH.
Qed.

Lemma Map_update_errorKeys field f m :
  (forall item, name (f item) = name item) ->
  map (fun entry => errorKey entry.2) (Map_update field f m)
  = map (fun entry => errorKey entry.2) m.
Proof.
  intros Hf. induction m as [|[k it] rest IH]; simpl; [done|].
  destruct (String.eqb k field); simpl.
  - unfold errorKey at 1. by rewrite Hf.
  - by rewrite IH.
Qed.

Lemma Map_update_named field f m :
  (forall item, name (f item) = name item) ->
  Forall (fun entry => name entry.2 = Some entry.1) m ->
  Forall (fun entry => name entry.2 = Some entry.1) (Map_update field f m).
Proof.
  intros Hf. induction 1 as [|[k it] rest Hk Hrest IH]; simpl; [done|].
  destruct (String.eqb k field); constructor; simpl in *; try done.
  by rewrite Hf.
Qed.

(** *** Registration *)

Lemma register_name type sp item : name (register type sp item) = name item.
Proof. unfold register. destruct sp as [sp|]; [|done]. by destruct (negb _). Qed.

Lemma addValidationTo_register type sp m field :
  addValidationTo type sp m field = Map_update field (register type sp) m.
Proof.
  unfold addValidationTo, Map_has.
  destruct (Map_get field m) as [item|] eqn:Hg.
  - unfold register. destruct sp as [sp|]; [|done].
    destruct (negb _); [|done].
    rewrite Map_update_update. done.
  - by rewrite Map_update_unknown.
Qed.

Lemma Map_get_addValidationTo type sp m field field' :
  Map_get field' (addValidationTo type sp m field)
  = if decide (field = field') then register type sp <$> Map_get field' m
    else Map_get field' m.
Proof. rewrite addValidationTo_register. apply Map_get_update. Qed.

Lemma fold_addValidationTo_get type sp flds m field :
  Map_get field (fold_left (addValidationTo type sp) flds m)
  = Nat.iter (count_occ string_dec flds field) (register type sp)
      <$> Map_get field m.
Proof.
  revert m. induction flds as [|g flds IH]; intros m; simpl.
  - by destruct (Map_get field m).
  - rewrite IH, Map_get_addValidationTo.
    destruct (string_dec g field) as [->|Hne].
    + rewrite decide_True by done. destruct (Map_get field m); simpl; [|done].
      f_equal. symmetry. apply (Nat.iter_succ_r _ (register type sp)).
    + by rewrite decide_False.
Qed.

Lemma fold_addValidationTo_unknown type sp flds m field :
  Map_get field m = None ->
  fold_left (addValidationTo type sp) flds m
  = fold_left (addValidationTo type sp) (filter (fun g => g <> field) flds) m.
Proof.
  revert m. induction flds as [|g flds IH]; intros m Hg; [done|].
  destruct (decide (g = field)) as [->|Hne].
  - rewrite filter_cons_False by (intros Hc; by apply Hc).
    simpl. rewrite addValidationTo_register, Map_update_unknown by done.
    by apply IH.
  - rewrite filter_cons_True by done. simpl. apply IH.
    rewrite Map_get_addValidationTo. by rewrite decide_False.
Qed.

Lemma fold_addValidationTo_errorKeys type sp flds m :
  map (fun entry => errorKey entry.2) (fold_left (addValidationTo type sp) flds m)
  = map (fun entry => errorKey entry.2) m.
Proof.
  revert m. induction flds as [|g flds IH]; intros m; simpl; [done|].
  rewrite IH, addValidationTo_register.
  apply Map_update_errorKeys, register_name.
Qed.

Lemma addValidation_errorKeys flds type sp this :
  errorKeys (addValidation flds type sp this) = errorKeys this.
Proof.
  unfold addValidation, errorKeys.
  destruct (_ && _); [|done]. destruct (_ <? _)%nat; [|done]. simpl.
  apply fold_addValidationTo_errorKeys.
Qed.

Lemma addValidation_errors flds type sp this :
  formObjectErrors (addValidation flds type sp this) = formObjectErrors this.
Proof.
  unfold addValidation.
  destruct (_ && _); [|done]. by destruct (_ <? _)%nat.
Qed.

Lemma isValidType_In type : isValidType type = true <-> In type availableValidationTypes.
Proof.
  unfold isValidType. rewrite existsb_exists. split.
  - intros (x & Hin & Heq). apply String.eqb_eq in Heq. by subst.
  - intros Hin. exists type. split; [done|]. apply String.eqb_refl.
Qed.

(** The effect of a registration with a valid type on any field. *)
Lemma addValidation_get flds type sp this field :
  In type availableValidationTypes ->
  Map_get field (formObject (addValidation flds type sp this))
  = Nat.iter (count_occ string_dec flds field) (register type sp)
      <$> Map_get field (formObject this).
Proof.
  intros Hin. unfold addValidation.
  assert (string_truthy type = true) as ->.
  { destruct type; [|done]. simpl in Hin. intuition discriminate. }
  apply isValidType_In in Hin as ->. simpl.
  destruct flds as [|g flds].
  - simpl. by destruct (Map_get _ _).
  - change (0 <? length (g :: flds))%nat with true. cbv iota.
    apply fold_addValidationTo_get.
Qed.

(** *** Invariants of the validators that the constructor builds *)

Lemma Map_set_keys field item m :
  map fst (Map_set field item m)
  = if decide (field ∈ map fst m) then map fst m else (map fst m ++ [field])%list.
Proof.
  induction m as [|[k it] rest IH]; simpl; [done|].
  destruct (String.eqb_spec k field) as [->|Hne]; simpl.
  -
    rewrite decide_True; [done|]. apply elem_of_cons. by left.
  - rewrite IH. destruct (decide (field ∈ map fst rest)) as [Hin|Hnin].
    + rewrite decide_True; [done|]. apply elem_of_cons. by right.
    + rewrite decide_False; [done|]. rewrite not_elem_of_cons. split; [done|apply Hnin].
Qed.

Lemma Map_set_NoDup field item m :
  NoDup (map fst m) -> NoDup (map fst (Map_set field item m)).
Proof.
  intros Hnd. rewrite Map_set_keys. case_decide; [done|].
  apply NoDup_app. split_and!; [done| |apply NoDup_singleton].
  intros x Hx Hx'. apply list_elem_of_singleton in Hx'. by subst.
Qed.

Lemma Map_set_named field item m :
  name item = Some field ->
  Forall (fun entry => name entry.2 = Some entry.1) m ->
  Forall (fun entry => name entry.2 = Some entry.1) (Map_set field item m).
Proof.
  intros Hn. induction 1 as [|[k it] rest Hk Hrest IH]; simpl.
  - by repeat constructor.
  - destruct (String.eqb_spec k field) as [->|Hne]; by constructor.
Qed.

Lemma FormValidator_new_invariant input :
  Forall (fun property => property.1 <> EmptyString) (enumerate input) ->
  wellNamed (FormValidator_new input)
  /\ NoDup (map fst (formObject (FormValidator_new input))).
Proof.
  intros Hkeys. unfold FormValidator_new, wellNamed.
  destruct (_ && _); simpl; [|split; [constructor|apply NoDup_nil_2]].
  unfold deepCopy.
  assert (Forall (fun entry => name entry.2 = Some entry.1)
            ([] : list (string * ValidatorModelItem))
          /\ NoDup (map fst ([] : list (string * ValidatorModelItem)))) as Hinit.
  { split; [constructor|apply NoDup_nil_2]. }
  revert Hinit. generalize ([] : list (string * ValidatorModelItem)).
  induction Hkeys as [|[field v] rest Hne _ IH]; intros m [Hnamed Hnd]; [done|].
  simpl. apply IH. split.
  - apply Map_set_named; [|done]. unfold ValidatorModelItem_new.
    simpl in Hne. by destruct field.
  - by apply Map_set_NoDup.
Qed.

Lemma wellNamed_errorKeys this :
  wellNamed this -> errorKeys this = map fst (formObject this).
Proof.
  unfold wellNamed, errorKeys. induction 1 as [|[k it] rest Hk _ IH]; simpl; [done|].
  simpl in Hk. unfold errorKey at 1. rewrite Hk. by rewrite IH.
Qed.

Lemma wellNamed_addValidation flds type sp this :
  wellNamed this -> wellNamed (addValidation flds type sp this).
Proof.
  unfold wellNamed, addValidation.
  destruct (_ && _); [|done]. destruct (_ <? _)%nat; [|done]. simpl.
  generalize (formObject this). induction flds as [|g flds IH]; intros m Hm; [done|].
  simpl. apply IH. rewrite addValidationTo_register.
  apply Map_update_named; [apply register_name|done].
Qed.

Lemma validate_formObject this : formObject (validate this).1 = formObject this.
Proof. by rewrite validate_forEach. Qed.

Lemma validate_errorKeys this : errorKeys (validate this).1 = errorKeys this.
Proof. unfold errorKeys. by rewrite validate_formObject. Qed.

(** *** The rules *)

Import ValidationErrors.

Lemma validateField_textLength s sp :
  validateField (VString s) "textLength" sp
  = Normal
      match
        match minLength sp with
        | Some m =>
            if number_truthy m then
              if number_lt (string_length s) m
              then Some (codeWith lessThanMinLength (minLengthSpecs m)) else None
            else None
        | None => None
        end, maxLength sp
      with
      | None, Some m =>
          if number_truthy m then
            if number_gt (string_length s) m
            then Some (codeWith moreThanMaxLength (maxLengthSpecs m)) else None
          else None
      | fieldError, _ => fieldError
      end.
Proof.
  unfold validateField.
  cbn -[number_lt number_gt number_truthy string_length].
  repeat case_match; by simplify_eq.
Qed.

(** Every rule other than [noWhitespace] returns, whatever the value. *)
Lemma validateField_returns v type sp :
  type <> "noWhitespace" -> exists r, validateField v type sp = Normal r.
Proof.
  intros Hne. unfold validateField.
  repeat match goal with
         | |- context [String.eqb type ?s] =>
             destruct (String.eqb_spec type s) as [->|?]
         end; try done; try (destruct v; by eauto); eauto.
Qed.

(** [noWhitespace] returns on strings and on falsy values, and raises on
    every other value. *)
Lemma validateField_noWhitespace v sp :
  validateField v "noWhitespace" sp
  = if truthy v then
      match v with
      | VString s =>
          Normal (if String.eqb (trim s) EmptyString
                  then Some (codeOnly isWhitespace) else None)
      | _ => Abrupt TypeError
      end
    else Normal None.
Proof. reflexivity. Qed.

(** With two failing rules and no rule after them, the loop leaves the
    error of the second one, from any error map. *)
Lemma doWhile_two_failing item A B eA eB errors :
  failsWith item A eA -> failsWith item B eB ->
  doWhile item [A; B] errors = (<[errorKey item := eB]> errors, Normal tt).
Proof.
  intros HA HB. rewrite doWhile_cons, HA. cbv zeta.
  rewrite hasError_putEntry. cbn [spreadKey].
  rewrite bool_decide_eq_false_2 by done.
  rewrite bool_decide_eq_true_2 by eauto.
  cbn [negb andb]. rewrite doWhile_cons, HB. simpl.
  by rewrite insert_insert_eq.
Qed.

(** *** The claims *)

(** C1 (the code departs from the claim).  The claim: for a field whose
    value fails two registered rules in order [A; B], the error map after
    [validate] holds the error code of [A].  On the record [{name: ""}]
    with [required] and then [isDate] registered on [name], both rules
    fail on the stored value, [validate] returns, and the entry of [name]
    carries [invalidDate], the code of the second rule, not [empty]. *)
Theorem validate_two_failing_rules_reports_second :
  let this :=
    addValidation ["name"] "isDate" None
      (addValidation ["name"] "required" None
         (FormValidator_new (VObject [("name", VString EmptyString)]))) in
  validateField (VString EmptyString) "required" noSpecs
    = Normal (Some (codeOnly empty))
  /\ validateField (VString EmptyString) "isDate" noSpecs
     = Normal (Some (codeOnly invalidDate))
  /\ (validate this).2 = Normal tt
  /\ getError "name" (validate this).1 = Entry (codeOnly invalidDate).
Proof. by vm_compute. Qed.

(** C3 (the code departs from the claim).  The claim: every rule returns
    for arbitrary stored values, [noWhitespace] included.  On the number
    [5] the rule [noWhitespace] raises a [TypeError], and so does
    [validate] on the record [{a: 5}] with that rule registered. *)
Theorem noWhitespace_throws_on_number :
  validateField (VNumber (Num 5)) "noWhitespace" noSpecs = Abrupt TypeError
  /\ (validate
        (addValidation ["a"] "noWhitespace" None
           (FormValidator_new (VObject [("a", VNumber (Num 5))])))).2
     = Abrupt TypeError.
Proof. by vm_compute. Qed.

(** C4 (the code departs from the claim).  The claim: a second [validate]
    right after a first one leaves the error map as the first one left
    it.  On the record [{undefined: 5, "": "x"}] with [required], [isDate]
    and [noWhitespace] registered on [undefined] and [required] on the
    empty key, the first [validate] returns and leaves [empty] under the
    key "undefined", written for the field of the empty key; the second
    one finds that entry when it runs the rules of [undefined], goes on
    past the passing [required], writes [invalidDate] and raises on
    [noWhitespace]: the entry has changed. *)
Theorem validate_twice_changes_entry :
  let this :=
    addValidation [EmptyString] "required" None
      (addValidation ["undefined"] "noWhitespace" None
         (addValidation ["undefined"] "isDate" None
            (addValidation ["undefined"] "required" None
               (FormValidator_new
                  (VObject [("undefined", VNumber (Num 5));
                            (EmptyString, VString "x")]))))) in
  (validate this).2 = Normal tt
  /\ formObjectErrors (validate this).1 !! "undefined" = Some (codeOnly empty)
  /\ (validate (validate this).1).2 = Abrupt TypeError
  /\ formObjectErrors (validate (validate this).1).1 !! "undefined"
     = Some (codeOnly invalidDate).
Proof. by vm_compute. Qed.

(** C5.  Registering a custom validator changes neither what [validate]
    does to the error map, nor how it completes, nor what [getErrors] and
    [getError] return, before or after [validate]; the custom validator
    is stored (when both lists of fields are non-empty), and the stored
    custom validators are never read by [validate]. *)
Theorem addCustomValidator_inert this flds errFlds v :
  formObjectErrors (validate (addCustomValidator flds errFlds v this)).1
    = formObjectErrors (validate this).1
  /\ (validate (addCustomValidator flds errFlds v this)).2 = (validate this).2
  /\ getErrors (addCustomValidator flds errFlds v this) = getErrors this
  /\ (forall n, getError n (addCustomValidator flds errFlds v this) = getError n this)
  /\ (forall n, getError n (validate (addCustomValidator flds errFlds v this)).1
                = getError n (validate this).1)
  /\ (forall stored,
        formObjectErrors
          (validate {| formObject := formObject this;
                       formObjectErrors := formObjectErrors this;
                       customValidators := stored |}).1
        = formObjectErrors (validate this).1)
  /\ customValidators (addCustomValidator flds errFlds v this)
     = if (0 <? length flds)%nat && (0 <? length errFlds)%nat
       then (customValidators this
               ++ [{| fields := flds; errorFields := errFlds; validator := v |}])%list
       else customValidators this.
Proof.
  unfold getErrors, getError, addCustomValidator.
  destruct (_ && _); rewrite ?validate_forEach; simpl;
    split_and!; try done; intros stored; by rewrite validate_forEach.
Qed.

(** C9.  A call of [addValidation] with a rule kind outside the nine
    kinds of [availableValidationTypes] leaves the validator unchanged. *)
Theorem addValidation_invalid_type_noop this flds type sp :
  ~ In type availableValidationTypes ->
  addValidation flds type sp this = this.
Proof.
  intros Hout. unfold addValidation.
  destruct (isValidType type) eqn:Hv.
  - apply isValidType_In in Hv. done.
  - by rewrite andb_false_r.
Qed.

(** C10.  For [valueRange] and [textLength] a lower bound of [0] is
    treated as an absent lower bound: the rule gives what it gives on the
    specs without that bound; so a negative number passes [valueRange]
    with the specs [{minValue: 0}]. *)
Theorem zero_lower_bound_ignored :
  (forall v sp,
      minValue sp = Some (Num 0) ->
      validateField v "valueRange" sp = validateField v "valueRange" (withoutMinValue sp))
  /\ (forall v sp,
        minLength sp = Some (Num 0) ->
        validateField v "textLength" sp
        = validateField v "textLength" (withoutMinLength sp))
  /\ (forall z,
        z < 0 ->
        validateField (VNumber (Num z)) "valueRange" (minValueSpecs (Num 0))
        = Normal None).
Proof.
  split_and!.
  - intros v sp Hmin. unfold validateField. simpl. by rewrite Hmin.
  - intros v sp Hmin. unfold validateField. simpl. by rewrite Hmin.
  - done.
Qed.




(** C2, as amended.  [validate] does not clear the entry of a field: when
    all the rules of the field pass on its stored value, and so do the
    rules of every other field that reports under the same key of the
    error map, [validate] leaves the entry under that key as it was; a
    prior error stays, an absent entry stays absent. *)
Theorem validate_passing_field_keeps_entry this field item :
  Map_get field (formObject this) = Some item ->
  (forall field' item',
      (field', item') ∈ formObject this ->
      errorKey item' = errorKey item ->
      Forall (passes item') (validations item')) ->
  formObjectErrors (validate this).1 !! errorKey item
  = formObjectErrors this !! errorKey item.
Proof.
  intros _ Hpass. rewrite validate_forEach. simpl. by apply forEach_all_pass.
Qed.



(** C8 (the code departs from the claim).  The claim: a name that is not
    a key of the record gets no rule, no specs and no entry of the error
    map from a registration that names it.  The record [{"": "x"}] has no
    key "undefined"; [addValidation(["undefined", ""], "required")] gives
    that name no item, and once [validate] has returned the error map
    holds [empty] under "undefined": the item of the empty key has no
    name and the value [null], and it reports under the key
    "undefined". *)
Theorem unknown_name_gets_entry_of_empty_key :
  let this := FormValidator_new (VObject [(EmptyString, VString "x")]) in
  let that := addValidation ["undefined"; EmptyString] "required" None this in
  Map_get "undefined" (formObject this) = None
  /\ Map_get "undefined" (formObject that) = None
  /\ getError "undefined" that = NoMember
  /\ (validate that).2 = Normal tt
  /\ getError "undefined" (validate that).1 = Entry (codeOnly empty).
Proof. by vm_compute. Qed.
End Properties.

(** * The claims on examples *)

Section Examples.
#[local] Existing Instance sampleCollaborators.

Import ValidationErrors.


(** C2, the claim as stated fails: in [relaxedValidator] the field [a]
    has two rules, both pass on its stored value, and after [validate]
    its entry is still the [lessThanMinLength] error of the earlier
    pass. *)
Lemma stale_error_survives_passing_rules :
  ~ clearsWhenPassing relaxedValidator "a".
Proof.
  intros Hclaim.
  specialize (Hclaim
    {| name := Some "a"; value := VString "ab";
       specs := minLengthSpecs (Num 1);
       validations := ["textLength"; "textLength"] |} eq_refl).
  assert (formObjectErrors (validate relaxedValidator).1 !! "a" = None) as Hnone.
  { apply Hclaim; [done|]. by repeat constructor. }
  vm_compute in Hnone. discriminate.
Qed.

Lemma validate_passing_field_keeps_entry_witness :
  formObjectErrors (validate relaxedValidator).1 !! "a"
  = formObjectErrors relaxedValidator !! "a"
  /\ formObjectErrors relaxedValidator !! "a"
     = Some (codeWith lessThanMinLength (minLengthSpecs (Num 3))).
Proof.
  split; [|reflexivity].
  apply (validate_passing_field_keeps_entry relaxedValidator "a"
           {| name := Some "a"; value := VString "ab";
              specs := minLengthSpecs (Num 1);
              validations := ["textLength"; "textLength"] |}).
  - reflexivity.
  - intros field' item' Hin _.
    let l := eval vm_compute in (formObject relaxedValidator) in
    change (formObject relaxedValidator) with l in Hin.
    apply list_elem_of_singleton in Hin. injection Hin as -> ->.
    repeat constructor.
Defined.



Lemma addValidation_invalid_type_noop_witness :
  addValidation ["email"; "age"] "minLength" (Some (minLengthSpecs (Num 3)))
    sampleValidator
  = sampleValidator.
Proof.
  apply addValidation_invalid_type_noop. simpl. intuition discriminate.
Defined.

Lemma zero_lower_bound_ignored_witness :
  validateField (VNumber (Num (-5))) "valueRange"
    {| minLength := None; maxLength := None; minValue := Some (Num 0);
       maxValue := Some (Num 9); minDate := None; maxDate := None |}
  = validateField (VNumber (Num (-5))) "valueRange" (maxValueSpecs (Num 9))
  /\ validateField (VString "abc") "textLength"
       {| minLength := Some (Num 0); maxLength := Some (Num 2); minValue := None;
          maxValue := None; minDate := None; maxDate := None |}
     = validateField (VString "abc") "textLength" (maxLengthSpecs (Num 2))
  /\ validateField (VNumber (Num (-5))) "valueRange" (minValueSpecs (Num 0))
     = Normal None.
Proof.
  destruct zero_lower_bound_ignored as (Hvalue & Htext & Hnegative).
  split_and!.
  - apply (Hvalue (VNumber (Num (-5)))
             {| minLength := None; maxLength := None; minValue := Some (Num 0);
                maxValue := Some (Num 9); minDate := None; maxDate := None |}).
    reflexivity.
  - apply (Htext (VString "abc")
             {| minLength := Some (Num 0); maxLength := Some (Num 2);
                minValue := None; maxValue := None; minDate := None;
                maxDate := None |}).
    reflexivity.
  - apply (Hnegative (-5)). lia.
Defined.
End Examples.

(** * Further properties of the validator *)

Section Construction.
Context `{Collaborators}.

Lemma fold_addValidationTo_nil type sp flds :
  fold_left (addValidationTo type sp) flds [] = [].
Proof. induction flds as [|g flds IH]; [done|]. simpl. apply IH. Qed.

Lemma Map_set_fresh field item (m : list (string * ValidatorModelItem)) :
  field ∉ map fst m -> Map_set field item m = (m ++ [(field, item)])%list.
Proof.
  induction m as [|[k it] rest IH]; simpl; [done|].
  rewrite not_elem_of_cons. intros [Hne Hrest].
  destruct (String.eqb_spec k field) as [->|_]; [done|]. by rewrite IH.
Qed.

Lemma fold_Map_set_fresh (props : list (string * any))
  (m : list (string * ValidatorModelItem)) :
  NoDup (map fst props) ->
  (forall k, k ∈ map fst props -> k ∉ map fst m) ->
  fold_left (fun m '(field, v) => Map_set field (ValidatorModelItem_new field v) m)
    props m
  = (m ++ map freshField props)%list.
Proof.
  revert m. induction props as [|[field v] rest IH]; intros m Hnd Hfresh; simpl.
  { by rewrite app_nil_r. }
  simpl in Hnd. apply NoDup_cons in Hnd as [Hfield Hnd].
  rewrite Map_set_fresh.
  - rewrite IH; [by rewrite <- app_assoc|done|].
    intros k Hk. rewrite map_app, elem_of_app. simpl.
    intros [Hm|Hm].
    + apply (Hfresh k); [|done]. simpl. apply elem_of_cons. by right.
    + apply list_elem_of_singleton in Hm. by subst.
  - apply Hfresh. simpl. apply elem_of_cons. by left.
Qed.

Lemma Map_get_freshField (props : list (string * any)) field v :
  NoDup (map fst props) ->
  (field, v) ∈ props ->
  Map_get field (map freshField props) = Some (ValidatorModelItem_new field v).
Proof.
  induction props as [|[k w] rest IH]; intros Hnd Hin.
  { by apply elem_of_nil in Hin. }
  simpl in Hnd. apply NoDup_cons in Hnd as [Hk Hnd].
  apply elem_of_cons in Hin as [Heq|Hin]; simpl.
  - injection Heq as <- <-. by rewrite String.eqb_refl.
  - destruct (String.eqb_spec k field) as [->|_]; [|by apply IH].
    exfalso. apply Hk. apply (list_elem_of_fmap_2 fst _ _ Hin).
Qed.

Lemma freshField_keys (props : list (string * any)) :
  map fst (map freshField props) = map fst props.
Proof. induction props as [|[k w] rest IH]; simpl; [done|]. by rewrite IH. Qed.

(** X1.  When the constructor is given an empty value or a value that is
    not an object, the validator holds no field: every registration leaves
    it as it is, and [validate] returns without an error. *)
Theorem FormValidator_new_not_a_record input :
  isEmpty input = true \/ typeof_object input = false ->
  formObject (FormValidator_new input) = []
  /\ (forall flds type sp,
        addValidation flds type sp (FormValidator_new input) = FormValidator_new input)
  /\ validate (FormValidator_new input) = (FormValidator_new input, Normal tt)
  /\ getErrors (validate (FormValidator_new input)).1 = ∅.
Proof.
  intros Hnot.
  assert (FormValidator_new input = emptyValidator) as ->.
  { unfold FormValidator_new. destruct Hnot as [-> | ->]; [done|].
    by rewrite andb_false_r. }
  split_and!; try done.
  intros flds type sp. unfold addValidation.
  destruct (_ && _); [|done]. destruct (_ <? _)%nat; [|done].
  simpl. by rewrite fold_addValidationTo_nil.
Qed.

(** X2.  From an object whose keys are distinct the constructor makes one
    field per property, in the order of the properties, each holding the
    value of the property (for a non-empty key) and no specs and no rule;
    a name that is not a key is not a field; the error map is empty and
    there is no custom validator. *)
Theorem FormValidator_new_fields (props : list (string * any)) :
  NoDup (map fst props) ->
  let this := FormValidator_new (VObject props) in
  map fst (formObject this) = map fst props
  /\ (forall field v,
        (field, v) ∈ props -> field <> EmptyString ->
        Map_get field (formObject this)
        = Some {| name := Some field; value := v; specs := noSpecs; validations := [] |})
  /\ (forall field, field ∉ map fst props -> Map_get field (formObject this) = None)
  /\ formObjectErrors this = ∅
  /\ customValidators this = [].
Proof.
  intros Hnd this.
  assert (formObject this = map freshField props) as Hfields.
  { unfold this, FormValidator_new. destruct props as [|p props]; [done|].
    change (negb (isEmpty (VObject (p :: props))) && typeof_object (VObject (p :: props)))
      with true. cbv iota. unfold deepCopy. cbn [formObject enumerate].
    rewrite fold_Map_set_fresh; [done|done|]. intros k _. apply not_elem_of_nil. }
  split_and!.
  - by rewrite Hfields, freshField_keys.
  - intros field v Hin Hne. rewrite Hfields, (Map_get_freshField _ _ v) by done.
    unfold ValidatorModelItem_new. by destruct field.
  - intros field Hout. apply Map_get_None. by rewrite Hfields, freshField_keys.
  - unfold this, FormValidator_new. by destruct (_ && _).
  - unfold this, FormValidator_new. by destruct (_ && _).
Qed.

(** X3.  The field of an empty-string key loses its value and its name:
    whatever the record holds under that key, the stored value is [null],
    and a [required] rule on it reports [empty] under the key "undefined"
    of the error map, and nothing under the empty key. *)
Theorem empty_key_field_loses_value (v : any) :
  let this := FormValidator_new (VObject [(EmptyString, v)]) in
  let that := addValidation [EmptyString] "required" None this in
  Map_get EmptyString (formObject this)
  = Some {| name := None; value := VNull; specs := noSpecs; validations := [] |}
  /\ (validate that).2 = Normal tt
  /\ getError "undefined" (validate that).1 = Entry (codeOnly ValidationErrors.empty)
  /\ getError EmptyString (validate that).1 = NoMember.
Proof. by vm_compute. Qed.
End Construction.

Section Registration.
Context `{Collaborators}.

Lemma spread_spread a b : spread (spread a b) b = spread a b.
Proof.
  unfold spread. simpl.
  by destruct (minLength b), (maxLength b), (minValue b), (maxValue b),
    (minDate b), (maxDate b).
Qed.

Lemma register_fields type sp item :
  register type sp item
  = {| name := name item; value := value item; specs := specsAfter sp (specs item);
       validations := validations item ++ [type] |}.
Proof.
  unfold register, specsAfter. destruct sp as [sp|]; [|done].
  by destruct (isEmpty (Some sp)).
Qed.

Lemma specsAfter_idem sp old : specsAfter sp (specsAfter sp old) = specsAfter sp old.
Proof.
  unfold specsAfter. destruct sp as [sp|]; [|done].
  destruct (isEmpty (Some sp)); [done|]. apply spread_spread.
Qed.

Lemma iter_register n type sp item :
  Nat.iter (S n) (register type sp) item
  = {| name := name item; value := value item; specs := specsAfter sp (specs item);
       validations := validations item ++ replicate (S n) type |}.
Proof.
  induction n as [|n IH].
  - simpl. apply register_fields.
  - rewrite Nat.iter_succ, IH, register_fields. cbn [name value specs validations].
    rewrite specsAfter_idem, <- app_assoc. do 2 f_equal.
    change ((replicate (S n) type ++ [type])%list = type :: replicate (S n) type).
    generalize (S n). intros k. induction k as [|k IHk]; [done|].
    simpl. by rewrite IHk.
Qed.

Lemma addValidation_get_iter flds type sp this field :
  exists n,
    Map_get field (formObject (addValidation flds type sp this))
    = Nat.iter n (register type sp) <$> Map_get field (formObject this).
Proof.
  unfold addValidation. destruct (_ && _).
  - destruct (_ <? _)%nat.
    + eexists. apply fold_addValidationTo_get.
    + exists 0%nat. by destruct (Map_get _ _).
  - exists 0%nat. by destruct (Map_get _ _).
Qed.

Lemma fold_addValidationTo_keys type sp flds (m : list (string * ValidatorModelItem)) :
  map fst (fold_left (addValidationTo type sp) flds m) = map fst m.
Proof.
  revert m. induction flds as [|g flds IH]; intros m; simpl; [done|].
  by rewrite IH, addValidationTo_register, Map_update_keys.
Qed.

(** X4.  A registration changes neither the error map, nor the custom
    validators, nor the fields and their order, nor the name and the
    stored value of a field; the rules a field had stay in front, in their
    order, and only copies of the registered kind are added behind them. *)
Theorem addValidation_frame flds type sp this :
  formObjectErrors (addValidation flds type sp this) = formObjectErrors this
  /\ customValidators (addValidation flds type sp this) = customValidators this
  /\ map fst (formObject (addValidation flds type sp this)) = map fst (formObject this)
  /\ (forall field item',
        Map_get field (formObject (addValidation flds type sp this)) = Some item' ->
        exists item n,
          Map_get field (formObject this) = Some item
          /\ name item' = name item
          /\ value item' = value item
          /\ validations item' = (validations item ++ replicate n type)%list).
Proof.
  split_and!.
  - apply addValidation_errors.
  - unfold addValidation. destruct (_ && _); [|done]. by destruct (_ <? _)%nat.
  - unfold addValidation. destruct (_ && _); [|done].
    destruct (_ <? _)%nat; [|done]. apply fold_addValidationTo_keys.
  - intros field item' Hget.
    destruct (addValidation_get_iter flds type sp this field) as [n Hn].
    rewrite Hget in Hn. destruct (Map_get field (formObject this)) as [item|]; [|done].
    simpl in Hn. injection Hn as ->. exists item, n. split; [done|].
    destruct n as [|n]; [simpl; by rewrite app_nil_r|].
    by rewrite iter_register.
Qed.

(** X5.  A call with a valid kind gives a known field that the call names
    [k] times [k] copies of the kind behind its rules, and, when the call
    has a non-empty specs object, the spread of its specs and the new
    ones, whatever the kind; without one its specs stay. *)
Theorem addValidation_known_field flds type sp this field item :
  In type availableValidationTypes ->
  Map_get field (formObject this) = Some item ->
  field ∈ flds ->
  Map_get field (formObject (addValidation flds type sp this))
  = Some {| name := name item; value := value item;
            specs := match sp with
                     | Some sp' => if isEmpty sp then specs item else spread (specs item) sp'
                     | None => specs item
                     end;
            validations :=
              (validations item ++ replicate (count_occ string_dec flds field) type)%list |}.
Proof.
  intros Hvalid Hget Hin. rewrite addValidation_get, Hget by done. simpl.
  apply list_elem_of_In, (count_occ_In string_dec) in Hin.
  destruct (count_occ string_dec flds field) as [|n]; [lia|].
  by rewrite iter_register.
Qed.

Lemma addValidation_unfold flds type sp this :
  addValidation flds type sp this
  = if string_truthy type && isValidType type then
      {| formObject := fold_left (addValidationTo type sp) flds (formObject this);
         formObjectErrors := formObjectErrors this;
         customValidators := customValidators this |}
    else this.
Proof.
  unfold addValidation. destruct (_ && _); [|done].
  destruct flds; [by destruct this|done].
Qed.

(** X6.  One call that names several fields does what a chain of calls
    does, each with a part of the list of fields, in the order of the
    list. *)
Theorem addValidation_app flds1 flds2 type sp this :
  addValidation (flds1 ++ flds2) type sp this
  = addValidation flds2 type sp (addValidation flds1 type sp this).
Proof.
  rewrite !addValidation_unfold. destruct (_ && _); [|done].
  simpl. by rewrite fold_left_app.
Qed.

Lemma Map_update_comm field1 field2 f g (m : list (string * ValidatorModelItem)) :
  field1 <> field2 ->
  Map_update field1 f (Map_update field2 g m)
  = Map_update field2 g (Map_update field1 f m).
Proof.
  intros Hne. induction m as [|[k it] rest IH]; simpl; [done|].
  destruct (String.eqb k field2) eqn:E2, (String.eqb k field1) eqn:E1; simpl;
    rewrite ?E1, ?E2; try done.
  - apply String.eqb_eq in E1, E2. congruence.
  - by rewrite IH.
Qed.

Lemma fold_addValidationTo_comm_one type1 sp1 type2 sp2 flds field
  (m : list (string * ValidatorModelItem)) :
  field ∉ flds ->
  addValidationTo type2 sp2 (fold_left (addValidationTo type1 sp1) flds m) field
  = fold_left (addValidationTo type1 sp1) flds (addValidationTo type2 sp2 m field).
Proof.
  revert m. induction flds as [|g flds IH]; intros m Hout; [done|].
  apply not_elem_of_cons in Hout as [Hne Hout]. simpl.
  rewrite IH by done. f_equal.
  rewrite !addValidationTo_register. by apply Map_update_comm.
Qed.

Lemma fold_addValidationTo_comm type1 sp1 type2 sp2 flds1 flds2
  (m : list (string * ValidatorModelItem)) :
  (forall field, field ∈ flds1 -> field ∉ flds2) ->
  fold_left (addValidationTo type2 sp2) flds2 (fold_left (addValidationTo type1 sp1) flds1 m)
  = fold_left (addValidationTo type1 sp1) flds1 (fold_left (addValidationTo type2 sp2) flds2 m).
Proof.
  revert m. induction flds2 as [|g flds2 IH]; intros m Hdisj; [done|].
  simpl. rewrite fold_addValidationTo_comm_one.
  - apply IH. intros field Hin Hin2. apply (Hdisj field Hin).
    apply elem_of_cons. by right.
  - intros Hin. apply (Hdisj g Hin). apply elem_of_cons. by left.
Qed.

(** X7.  Two registrations that name no field in common can be made in
    either order: the validator that results is the same. *)
Theorem addValidation_comm flds1 type1 sp1 flds2 type2 sp2 this :
  (forall field, field ∈ flds1 -> field ∉ flds2) ->
  addValidation flds2 type2 sp2 (addValidation flds1 type1 sp1 this)
  = addValidation flds1 type1 sp1 (addValidation flds2 type2 sp2 this).
Proof.
  intros Hdisj. rewrite !addValidation_unfold.
  destruct (string_truthy type1 && isValidType type1),
    (string_truthy type2 && isValidType type2); simpl; try done.
  by rewrite fold_addValidationTo_comm.
Qed.
End Registration.

Section Validation.
Context `{Collaborators}.

Import ValidationErrors.

Lemma validateItem_keeps item (errors : ModelErrors) key :
  is_Some (errors !! key) -> is_Some ((validateItem item errors).1 !! key).
Proof.
  intros Hsome. destruct (decide (errorKey item = key)) as [<-|Hne].
  - rewrite validateItem_lookup_eq. destruct Hsome as [p ->].
    destruct (entryLoop_Some item (validations item)
                (inherits (errorKey item) errors) p) as [q ->]. eauto.
  - by rewrite validateItem_lookup_ne.
Qed.

Lemma forEach_keeps items (errors : ModelErrors) key :
  is_Some (errors !! key) -> is_Some ((forEach items errors).1 !! key).
Proof.
  revert errors. induction items as [|[field item] rest IH]; intros errors Hsome; [done|].
  rewrite forEach_cons. destruct (validateItem item errors).2; simpl.
  - by apply IH, validateItem_keeps.
  - by apply validateItem_keeps.
Qed.

(** X8.  [validate] changes neither the fields nor the custom validators,
    and it never removes an entry of the error map: a key that had an
    error before the call has one after it, whether the call returns or
    raises. *)
Theorem validate_never_removes this :
  formObject (validate this).1 = formObject this
  /\ customValidators (validate this).1 = customValidators this
  /\ forall key,
       is_Some (formObjectErrors this !! key) ->
       is_Some (formObjectErrors (validate this).1 !! key).
Proof.
  rewrite validate_forEach. simpl. split_and!; [done|done|].
  intros key. apply forEach_keeps.
Qed.

(** X9.  [validate] leaves the entry of a key as it is unless some field
    with at least one rule reports under that key: the error of a field
    that has no rule, and any entry that belongs to no field, stay. *)
Theorem validate_untouched_without_rules this key :
  (forall field item,
      (field, item) ∈ formObject this -> validations item <> [] -> errorKey item <> key) ->
  formObjectErrors (validate this).1 !! key = formObjectErrors this !! key.
Proof.
  rewrite validate_forEach. simpl.
  generalize (formObjectErrors this). induction (formObject this) as [|[field item] rest IH];
    intros errors Hrules; [done|].
  assert ((validateItem item errors).1 !! key = errors !! key) as Hitem.
  { destruct (validations item) as [|type types] eqn:Hv.
    - unfold validateItem. by rewrite Hv.
    - apply validateItem_lookup_ne. apply (Hrules field item).
      + apply elem_of_cons. by left.
      + by rewrite Hv. }
  rewrite forEach_cons. destruct (validateItem item errors).2; simpl; [|done].
  rewrite IH; [done|]. intros field' item' Hin. apply (Hrules field').
  apply elem_of_cons. by right.
Qed.

Lemma entryLoop_sound item rest sticky entry fe :
  (entryLoop item rest sticky entry).1 = Some fe ->
  entry = Some fe \/ exists type, type ∈ rest /\ failsWith item type fe.
Proof.
  revert entry. induction rest as [|type rest IH]; intros entry; [by left|].
  rewrite entryLoop_cons.
  destruct (validateField _ _ _) as [[fe'|]|e] eqn:Hv; cbn [spreadKey]; cbv zeta;
    [| |by left].
  - destruct (_ && _).
    + intros Hl. destruct (IH _ Hl) as [Heq|(type' & Hin & Hf)].
      * right. exists type. split; [apply elem_of_cons; by left|].
        unfold failsWith. by simplify_eq.
      * right. exists type'. split; [apply elem_of_cons; by right|done].
    + simpl. intros Heq. right. exists type.
      split; [apply elem_of_cons; by left|]. unfold failsWith. by simplify_eq.
  - destruct (_ && _).
    + intros Hl. destruct (IH _ Hl) as [Heq|(type' & Hin & Hf)]; [by left|].
      right. exists type'. split; [apply elem_of_cons; by right|done].
    + by left.
Qed.

(** X10.  Every entry that [validate] leaves in the error map was there
    before the call or is the error that one of the rules of a field
    reporting under that key yields on the stored value and specs of that
    field. *)
Theorem validate_entry_sound this key fe :
  formObjectErrors (validate this).1 !! key = Some fe ->
  formObjectErrors this !! key = Some fe
  \/ exists field item type,
       (field, item) ∈ formObject this
       /\ errorKey item = key
       /\ type ∈ validations item
       /\ failsWith item type fe.
Proof.
  rewrite validate_forEach. simpl.
  generalize (formObjectErrors this). induction (formObject this) as [|[field item] rest IH];
    intros errors Hl; [by left|].
  assert ((validateItem item errors).1 !! key = Some fe ->
          errors !! key = Some fe
          \/ exists type, errorKey item = key /\ type ∈ validations item
                          /\ failsWith item type fe) as Hitem.
  { destruct (decide (errorKey item = key)) as [<-|Hne].
    - rewrite validateItem_lookup_eq. intros Hv.
      destruct (entryLoop_sound _ _ _ _ _ Hv) as [?|(type & ? & ?)]; [by left|].
      right. by exists type.
    - rewrite validateItem_lookup_ne by done. by left. }
  assert (forall type, errorKey item = key /\ type ∈ validations item
                       /\ failsWith item type fe ->
          exists field' item' type',
            (field', item') ∈ (field, item) :: rest /\ errorKey item' = key
            /\ type' ∈ validations item' /\ failsWith item' type' fe) as Hhere.
  { intros type (? & ? & ?). exists field, item, type.
    split_and!; try done. apply elem_of_cons. by left. }
  rewrite forEach_cons in Hl. destruct (validateItem item errors).2; simpl in Hl.
  - destruct (IH _ Hl) as [Hprev|(field' & item' & type' & Hin & ?)].
    + destruct (Hitem Hprev) as [?|(type & ?)]; [by left|]. right. by eapply Hhere.
    + right. exists field', item', type'. split; [|done].
      apply elem_of_cons. by right.
  - destruct (Hitem Hl) as [?|(type & ?)]; [by left|]. right. by eapply Hhere.
Qed.

(** X11.  In a validator whose fields report under distinct keys, a field
    without an entry whose first rule passes has no entry after
    [validate], whatever its other rules would yield: they are not run.
    This is for a field whose key is plain, that is neither the name of
    a member of [Object.prototype] nor [errorCode] or [specs]; under such
    names the error object can inherit a truthy value, and the loop then
    goes on. *)
Theorem validate_first_rule_passes_no_error this field item type rest :
  NoDup (errorKeys this) ->
  Map_get field (formObject this) = Some item ->
  plainKey (errorKey item) = true ->
  validations item = type :: rest ->
  passes item type ->
  formObjectErrors this !! errorKey item = None ->
  formObjectErrors (validate this).1 !! errorKey item = None.
Proof.
  intros Hnd Hget Hplain Hrules Hpass Hnone. rewrite validate_forEach. simpl.
  apply Map_get_Some_elem in Hget.
  destruct (forEach_lookup_field_cases (formObject this) (formObjectErrors this)
              field item Hnd Hget) as [->|[errors' ->]]; [done|].
  rewrite inherits_plainKey by done.
  rewrite Hnone, Hrules, entryLoop_cons, Hpass. simpl.
  by rewrite andb_false_r.
Qed.

(** X12.  In a validator whose fields report under distinct keys, after a
    [validate] that returns, the entry of a field with exactly one rule is
    the error that the rule yields, and the entry it had before when the
    rule passes. *)
Theorem validate_single_rule this field item type r :
  NoDup (errorKeys this) ->
  Map_get field (formObject this) = Some item ->
  validations item = [type] ->
  validateField (value item) type (specs item) = Normal r ->
  (validate this).2 = Normal tt ->
  formObjectErrors (validate this).1 !! errorKey item
  = match r with
    | Some fe => Some fe
    | None => formObjectErrors this !! errorKey item
    end.
Proof.
  intros Hnd Hget Hrules Hr. rewrite validate_forEach. simpl. intros Hret.
  apply Map_get_Some_elem in Hget.
  destruct (forEach_lookup_field _ _ _ _ Hnd Hget Hret) as [sticky ->].
  rewrite Hrules, entryLoop_cons, Hr.
  simpl. by destruct r.
Qed.

Lemma doWhile_returns item rest (errors : ModelErrors) :
  (forall type, type ∈ rest ->
                exists r, validateField (value item) type (specs item) = Normal r) ->
  (doWhile item rest errors).2 = Normal tt.
Proof.
  revert errors. induction rest as [|type rest IH]; intros errors Hall; [done|].
  rewrite doWhile_cons.
  destruct (Hall type) as [r ->]; [apply elem_of_cons; by left|].
  cbv zeta. destruct (_ && _); [|done].
  apply IH. intros type' Hin. apply Hall. apply elem_of_cons. by right.
Qed.

(** X13.  [validate] returns when every field that holds the rule
    [noWhitespace] stores a string or a falsy value; in particular it
    returns on every validator without that rule. *)
Theorem validate_returns this :
  (forall field item,
      (field, item) ∈ formObject this ->
      "noWhitespace" ∈ validations item ->
      truthy (value item) = false \/ exists s, value item = VString s) ->
  (validate this).2 = Normal tt.
Proof.
  rewrite validate_forEach. simpl.
  generalize (formObjectErrors this). induction (formObject this) as [|[field item] rest IH];
    intros errors Hsafe; [done|].
  rewrite forEach_cons.
  assert ((validateItem item errors).2 = Normal tt) as ->.
  { rewrite validateItem_doWhile. apply doWhile_returns. intros type Hin.
    destruct (decide (type = "noWhitespace")) as [->|Hne];
      [|by apply validateField_returns].
    rewrite validateField_noWhitespace.
    destruct (Hsafe field item) as [->|[s ->]]; [apply elem_of_cons; by left|done|by eauto|].
    destruct (truthy (VString s)); eauto. }
  apply IH. intros field' item' Hin. apply (Hsafe field'). apply elem_of_cons. by right.
Qed.
End Validation.

Section Rules.
Context `{Collaborators}.

Import ValidationErrors.

Lemma Map_set_Forall (P : string * ValidatorModelItem -> Prop) field item
  (m : list (string * ValidatorModelItem)) :
  (forall k, P (k, item)) -> Forall P m -> Forall P (Map_set field item m).
Proof.
  intros Hitem. induction 1 as [|[k it] rest Hk Hrest IH]; simpl.
  - by repeat constructor.
  - destruct (String.eqb k field); by constructor.
Qed.

Lemma Map_update_Forall (P : string * ValidatorModelItem -> Prop) field f
  (m : list (string * ValidatorModelItem)) :
  (forall k it, P (k, it) -> P (k, f it)) -> Forall P m -> Forall P (Map_update field f m).
Proof.
  intros Hf. induction 1 as [|[k it] rest Hk Hrest IH]; simpl; [done|].
  destruct (String.eqb k field); constructor; auto.
Qed.

Lemma validateField_unknown_kind v type sp :
  ~ In type availableValidationTypes -> validateField v type sp = Normal None.
Proof.
  intros Hout. unfold validateField.
  repeat match goal with
         | |- context [String.eqb type ?s] =>
             destruct (String.eqb_spec type s) as [->|?]
         end; try done; exfalso; apply Hout; simpl; tauto.
Qed.

(** X14.  A field only ever holds rules of the nine kinds: the constructor
    gives none, a registration adds a kind only after [isValidType], and
    [addCustomValidator] and [validate] add none; so the [default] branch
    of [validateField], which lets any other kind pass, is not reached
    from [validate]. *)
Theorem only_valid_kinds_stored :
  (forall input, validKinds (FormValidator_new input))
  /\ (forall flds type sp this,
        validKinds this -> validKinds (addValidation flds type sp this))
  /\ (forall flds errFlds v this,
        validKinds this -> validKinds (addCustomValidator flds errFlds v this))
  /\ (forall this, validKinds this -> validKinds (validate this).1)
  /\ (forall v type sp,
        ~ In type availableValidationTypes -> validateField v type sp = Normal None).
Proof.
  unfold validKinds. split_and!.
  - intros input. unfold FormValidator_new. destruct (_ && _); [|constructor].
    cbn [formObject].
    assert (Forall
              (fun entry : string * ValidatorModelItem =>
                 Forall (fun type => In type availableValidationTypes)
                   (validations entry.2)) []) as Hinit by constructor.
    revert Hinit. generalize ([] : list (string * ValidatorModelItem)).
    induction (enumerate (deepCopy input)) as [|[field v] rest IH]; intros m Hm; [done|].
    cbn [fold_left]. apply IH.
    apply (Map_set_Forall
             (fun entry => Forall (fun type => In type availableValidationTypes)
                             (validations entry.2))); [|done].
    intros k. unfold ValidatorModelItem_new. destruct (string_truthy field); constructor.
  - intros flds type sp this Hthis. unfold addValidation.
    destruct (string_truthy type && isValidType type) eqn:Hvalid; [|done].
    destruct (_ <? _)%nat; [|done]. cbn [formObject].
    apply andb_prop in Hvalid as [_ Hvalid]. apply isValidType_In in Hvalid.
    revert Hthis. generalize (formObject this).
    induction flds as [|g flds IH]; intros m Hm; [done|].
    cbn [fold_left]. apply IH. rewrite addValidationTo_register.
    apply (Map_update_Forall
             (fun entry => Forall (fun type => In type availableValidationTypes)
                             (validations entry.2))); [|done].
    intros k it Hit. cbn [snd] in *. rewrite register_fields. cbn [validations].
    apply Forall_app. split; [done|]. by apply Forall_singleton.
  - intros flds errFlds v this Hthis. unfold addCustomValidator. by destruct (_ && _).
  - intros this Hthis. by rewrite validate_forEach.
  - apply validateField_unknown_kind.
Qed.

(** X15.  The bounds of the three range rules are inclusive.  With two
    non-zero bounds, [valueRange] passes a number exactly when it is [NaN]
    or lies between the bounds, ends included, and [textLength] a string
    exactly when its length lies between them; with two dates as bounds,
    [dateRange] passes a date exactly when its day lies between the days
    of the bounds. *)
Theorem range_bounds_inclusive :
  (forall n lo hi sp,
      minValue sp = Some (Num lo) -> maxValue sp = Some (Num hi) ->
      lo <> 0 -> hi <> 0 ->
      (validateField (VNumber n) "valueRange" sp = Normal None
       <-> n = NaN \/ exists z, n = Num z /\ lo <= z <= hi))
  /\ (forall s lo hi sp,
        minLength sp = Some (Num lo) -> maxLength sp = Some (Num hi) ->
        lo <> 0 -> hi <> 0 ->
        (validateField (VString s) "textLength" sp = Normal None
         <-> lo <= Z.of_nat (String.length s) <= hi))
  /\ (forall d lo hi sp,
        minDate sp = Some lo -> maxDate sp = Some hi ->
        (validateField (VDate d) "dateRange" sp = Normal None
         <-> clearTime lo <= clearTime d <= clearTime hi)).
Proof.
  split_and!.
  - intros n lo hi sp Hmin Hmax Hlo Hhi. unfold validateField. simpl.
    rewrite Hmin, Hmax. simpl.
    rewrite (proj2 (Z.eqb_neq lo 0) Hlo), (proj2 (Z.eqb_neq hi 0) Hhi). simpl.
    destruct n as [|z]; simpl; [split; [by left|done]|].
    destruct (Z.ltb_spec z lo).
    { split; [done|]. intros [?|(z' & ? & ?)]; [done|]. simplify_eq. lia. }
    destruct (Z.ltb_spec hi z).
    { split; [done|]. intros [?|(z' & ? & ?)]; [done|]. simplify_eq. lia. }
    split; [|done]. intros _. right. exists z. split; [done|lia].
  - intros s lo hi sp Hmin Hmax Hlo Hhi. rewrite validateField_textLength.
    rewrite Hmin, Hmax. unfold number_gt, number_lt, string_length. simpl.
    rewrite (proj2 (Z.eqb_neq lo 0) Hlo), (proj2 (Z.eqb_neq hi 0) Hhi). simpl.
    destruct (Z.ltb_spec (Z.of_nat (String.length s)) lo); [split; [done|lia]|].
    destruct (Z.ltb_spec hi (Z.of_nat (String.length s))); [split; [done|lia]|].
    split; [lia|done].
  - intros d lo hi sp Hmin Hmax. unfold validateField. simpl.
    rewrite Hmin, Hmax. unfold isBefore, isAfter.
    destruct (Z.ltb_spec (clearTime d) (clearTime lo)); [split; [done|lia]|].
    destruct (Z.ltb_spec (clearTime hi) (clearTime d)); [split; [done|lia]|].
    split; [lia|done].
Qed.

(** X16.  The [specs] of an error that a rule returns, when present, holds
    exactly one bound of the specs of the field, the one that the stored
    value violates, and the error code names it: a date whose day is
    before the day of [minDate] or after the day of [maxDate], a string
    shorter than [minLength] or longer than [maxLength], a number below
    [minValue] or above [maxValue]. *)
Theorem error_echoes_violated_bound v type sp fe :
  validateField v type sp = Normal (Some fe) ->
  errorSpecs fe = None
  \/ (exists d bound,
        type = "dateRange" /\ v = VDate d /\ minDate sp = Some bound
        /\ clearTime d < clearTime bound
        /\ fe = codeWith beforeMinDate (minDateSpecs bound))
  \/ (exists d bound,
        type = "dateRange" /\ v = VDate d /\ maxDate sp = Some bound
        /\ clearTime bound < clearTime d
        /\ fe = codeWith afterMaxDate (maxDateSpecs bound))
  \/ (exists s bound,
        type = "textLength" /\ v = VString s /\ minLength sp = Some bound
        /\ number_lt (string_length s) bound = true
        /\ fe = codeWith lessThanMinLength (minLengthSpecs bound))
  \/ (exists s bound,
        type = "textLength" /\ v = VString s /\ maxLength sp = Some bound
        /\ number_lt bound (string_length s) = true
        /\ fe = codeWith moreThanMaxLength (maxLengthSpecs bound))
  \/ (exists n bound,
        type = "valueRange" /\ v = VNumber n /\ minValue sp = Some bound
        /\ number_lt n bound = true
        /\ fe = codeWith lessThanMinValue (minValueSpecs bound))
  \/ (exists n bound,
        type = "valueRange" /\ v = VNumber n /\ maxValue sp = Some bound
        /\ number_lt bound n = true
        /\ fe = codeWith moreThanMaxValue (maxValueSpecs bound)).
Proof.
  unfold validateField.
  repeat match goal with
         | |- context [String.eqb type ?s] =>
             destruct (String.eqb_spec type s) as [->|?]
         end;
    cbn -[number_lt number_gt number_truthy string_length isBefore isAfter];
    intros Hfe; repeat case_match; simplify_eq;
    repeat match goal with
           | Hlt : isBefore _ _ = true |- _ => apply Z.ltb_lt in Hlt
           | Hlt : isAfter _ _ = true |- _ => apply Z.ltb_lt in Hlt
           end;
    unfold number_gt in *;
    solve [ by left
          | right; left; eauto 10
          | do 2 right; left; eauto 10
          | do 3 right; left; eauto 10
          | do 4 right; left; eauto 10
          | do 5 right; left; eauto 10
          | do 6 right; eauto 10 ].
Qed.

Lemma trimEnd_empty s : trimEnd s = EmptyString <-> allWhiteSpace s = true.
Proof.
  induction s as [|a rest IH]; simpl; [done|].
  destruct (trimEnd rest) as [|b rest'] eqn:Hrest.
  - destruct (isWhiteSpace a); simpl; [by rewrite <- IH|done].
  - split; [done|]. rewrite andb_true_iff. intros [_ Hall].
    apply IH in Hall. done.
Qed.

Lemma allWhiteSpace_trimStart s : allWhiteSpace (trimStart s) = allWhiteSpace s.
Proof.
  induction s as [|a rest IH]; simpl; [done|].
  destruct (isWhiteSpace a) eqn:Ha; simpl; [done|]. by rewrite Ha.
Qed.

(** X17.  On a string [noWhitespace] reports [isWhitespace] exactly when
    the string is not empty and made of white space only; the empty
    string, and every other falsy value, passes. *)
Theorem noWhitespace_rejects_blank_strings :
  (forall s sp,
      validateField (VString s) "noWhitespace" sp
      = Normal (if string_truthy s && allWhiteSpace s
                then Some (codeOnly isWhitespace) else None))
  /\ (forall v sp, truthy v = false -> validateField v "noWhitespace" sp = Normal None).
Proof.
  split.
  - intros s sp. rewrite validateField_noWhitespace. cbn [truthy].
    destruct (string_truthy s); [|done]. simpl. f_equal.
    destruct (allWhiteSpace s) eqn:Hall.
    + assert (trim s = EmptyString) as ->; [|done].
      unfold trim. apply trimEnd_empty. by rewrite allWhiteSpace_trimStart.
    + destruct (String.eqb_spec (trim s) EmptyString) as [Hempty|_]; [|done].
      unfold trim in Hempty. apply trimEnd_empty in Hempty.
      rewrite allWhiteSpace_trimStart in Hempty. congruence.
  - intros v sp Hfalsy. rewrite validateField_noWhitespace. by rewrite Hfalsy.
Qed.

(** X18.  A validator built from a record whose keys are all non-empty
    has items that carry the key they are stored under, and its fields
    report under distinct keys of the error map; registrations, custom
    validators and [validate] keep both, since they keep the names and
    the keys. *)
Theorem distinct_keys_invariant :
  (forall input,
      Forall (fun property => property.1 <> EmptyString) (enumerate input) ->
      wellNamed (FormValidator_new input) /\ NoDup (errorKeys (FormValidator_new input)))
  /\ (forall flds type sp this,
        (wellNamed this -> wellNamed (addValidation flds type sp this))
        /\ errorKeys (addValidation flds type sp this) = errorKeys this)
  /\ (forall flds errFlds v this,
        (wellNamed this -> wellNamed (addCustomValidator flds errFlds v this))
        /\ errorKeys (addCustomValidator flds errFlds v this) = errorKeys this)
  /\ (forall this,
        (wellNamed this -> wellNamed (validate this).1)
        /\ errorKeys (validate this).1 = errorKeys this).
Proof.
  split_and!.
  - intros input Hkeys. destruct (FormValidator_new_invariant input Hkeys) as [Hn Hnd].
    split; [done|]. by rewrite wellNamed_errorKeys.
  - intros flds type sp this. split.
    + apply wellNamed_addValidation.
    + apply addValidation_errorKeys.
  - intros flds errFlds v this. unfold addCustomValidator, wellNamed, errorKeys.
    by destruct (_ && _).
  - intros this. unfold wellNamed, errorKeys. by rewrite validate_forEach.
Qed.
End Rules.

(** * The table of command-line options *)

Section Options.
Import CustomOptions.

Local Ltac member := repeat first [apply list_elem_of_here | apply list_elem_of_further].

Local Ltac partner d :=
  let found :=
    eval vm_compute in (List.find (fun o' => bool_decide (d ∈ flags o')) options) in
  match found with
  | Some ?o' => exists o'
  end.

(** X19.  In the table of options no spelling belongs to two options, or
    twice to one; and the dependencies are mutual: every flag that an
    option depends on is a spelling of an option of the table that depends
    on every spelling of the first and carries the same error message. *)
Theorem options_dependencies_mutual :
  NoDup (concat (map flags options))
  /\ forall o d,
       o ∈ options -> d ∈ dependencies o ->
       exists o',
         o' ∈ options
         /\ d ∈ flags o'
         /\ (forall f, f ∈ flags o -> f ∈ dependencies o')
         /\ errorMessage o' = errorMessage o.
Proof.
  split; [compute_done|].
  intros o d Ho Hd. unfold options in Ho.
  repeat (apply elem_of_cons in Ho as [->|Ho]);
    try (by apply elem_of_nil in Ho);
    cbn [dependencies dependedOption] in Hd;
    repeat (apply elem_of_cons in Hd as [->|Hd]);
    try (by apply elem_of_nil in Hd);
    match goal with
    | |- exists o', _ /\ ?d ∈ _ /\ _ => partner d
    end;
    (split_and!;
     [ unfold options; member
     | cbn [flags]; member
     | intros f Hf; cbn [flags] in Hf;
       repeat (apply elem_of_cons in Hf as [->|Hf]);
       [cbn [dependencies dependedOption]; member..|by apply elem_of_nil in Hf]
     | reflexivity ]).
Qed.
End Options.

(** * The further properties on examples *)

Section FurtherExamples.
#[local] Existing Instance sampleCollaborators.

Import ValidationErrors.

Local Ltac member := repeat first [apply list_elem_of_here | apply list_elem_of_further].

(** Replaces the fields of a concrete validator by their list. *)
Local Ltac fields_of this :=
  let l := eval vm_compute in (formObject this) in
  change (formObject this) with l in *.

Lemma FormValidator_new_not_a_record_witness :
  addValidation ["a"] "required" None (FormValidator_new (VString "abc"))
  = FormValidator_new (VString "abc")
  /\ validate (FormValidator_new (VString "abc"))
     = (FormValidator_new (VString "abc"), Normal tt).
Proof.
  destruct (FormValidator_new_not_a_record (VString "abc") (or_intror eq_refl))
    as (_ & Hadd & Hvalidate & _).
  split; [apply Hadd|apply Hvalidate].
Defined.

Lemma FormValidator_new_fields_witness :
  let this :=
    FormValidator_new (VObject [("email", VString "bad"); ("age", VNumber (Num 15))]) in
  map fst (formObject this) = ["email"; "age"]
  /\ Map_get "age" (formObject this)
     = Some {| name := Some "age"; value := VNumber (Num 15); specs := noSpecs;
               validations := [] |}
  /\ Map_get "zip" (formObject this) = None.
Proof.
  intros this.
  destruct (FormValidator_new_fields
              [("email", VString "bad"); ("age", VNumber (Num 15))])
    as (Hkeys & Hfield & Hmissing & _); [compute_done|].
  split_and!.
  - exact Hkeys.
  - apply Hfield; [member|discriminate].
  - apply Hmissing. compute_done.
Defined.

Lemma addValidation_frame_witness :
  exists item n,
    Map_get "email" (formObject sampleValidator) = Some item
    /\ Some "email" = name item
    /\ VString "bad" = value item
    /\ ["validEmail"; "required"] = (validations item ++ replicate n "required")%list.
Proof.
  destruct (addValidation_frame ["email"] "required" None sampleValidator)
    as (_ & _ & _ & Hitem).
  apply (Hitem "email"
           {| name := Some "email"; value := VString "bad"; specs := noSpecs;
              validations := ["validEmail"; "required"] |}).
  reflexivity.
Defined.

Lemma addValidation_known_field_witness :
  Map_get "age"
    (formObject (addValidation ["age"; "email"; "age"] "textLength"
                   (Some (maxLengthSpecs (Num 4))) sampleValidator))
  = Some {| name := Some "age"; value := VNumber (Num 15);
            specs := {| minLength := None; maxLength := Some (Num 4);
                        minValue := Some (Num 18); maxValue := None;
                        minDate := None; maxDate := None |};
            validations := ["valueRange"; "textLength"; "textLength"] |}.
Proof.
  apply (addValidation_known_field ["age"; "email"; "age"] "textLength"
           (Some (maxLengthSpecs (Num 4))) sampleValidator "age"
           {| name := Some "age"; value := VNumber (Num 15);
              specs := minValueSpecs (Num 18); validations := ["valueRange"] |}).
  - simpl. tauto.
  - reflexivity.
  - member.
Defined.

Lemma addValidation_comm_witness :
  addValidation ["age"; "when"] "required" None
    (addValidation ["email"] "textLength" (Some (minLengthSpecs (Num 5))) sampleValidator)
  = addValidation ["email"] "textLength" (Some (minLengthSpecs (Num 5)))
      (addValidation ["age"; "when"] "required" None sampleValidator).
Proof.
  apply addValidation_comm.
  intros field Hin. apply list_elem_of_singleton in Hin. subst field. compute_done.
Defined.

Lemma validate_never_removes_witness :
  is_Some (formObjectErrors (validate relaxedValidator).1 !! "a").
Proof.
  destruct (validate_never_removes relaxedValidator) as (_ & _ & Hkeeps).
  apply Hkeeps. by eexists.
Defined.

Lemma validate_untouched_without_rules_witness :
  formObjectErrors (validate sampleValidator).1 !! "nickname"
  = formObjectErrors sampleValidator !! "nickname".
Proof.
  apply validate_untouched_without_rules.
  intros field item Hin _. fields_of sampleValidator.
  repeat (apply elem_of_cons in Hin as [Hin|Hin]);
    [injection Hin as -> ->; discriminate..|by apply elem_of_nil in Hin].
Defined.

Lemma validate_entry_sound_witness :
  formObjectErrors sampleValidator !! "age"
  = Some (codeWith lessThanMinValue (minValueSpecs (Num 18)))
  \/ exists field item type,
       (field, item) ∈ formObject sampleValidator
       /\ errorKey item = "age"
       /\ type ∈ validations item
       /\ failsWith item type (codeWith lessThanMinValue (minValueSpecs (Num 18))).
Proof.
  apply (validate_entry_sound sampleValidator "age"). reflexivity.
Defined.

Lemma validate_first_rule_passes_no_error_witness :
  let this :=
    addValidation ["email"] "validEmail" None
      (addValidation ["email"] "required" None
         (FormValidator_new (VObject [("email", VString "bad")]))) in
  validateField (VString "bad") "validEmail" noSpecs
  = Normal (Some (codeOnly invalidEmail))
  /\ formObjectErrors (validate this).1 !! "email" = None.
Proof.
  intros this. split; [reflexivity|].
  apply (validate_first_rule_passes_no_error this "email"
           {| name := Some "email"; value := VString "bad"; specs := noSpecs;
              validations := ["required"; "validEmail"] |} "required" ["validEmail"]).
  - compute_done.
  - reflexivity.
  - reflexivity.
  - reflexivity.
  - reflexivity.
  - reflexivity.
Defined.

Lemma validate_single_rule_witness :
  formObjectErrors (validate sampleValidator).1 !! "age"
  = Some (codeWith lessThanMinValue (minValueSpecs (Num 18))).
Proof.
  apply (validate_single_rule sampleValidator "age"
           {| name := Some "age"; value := VNumber (Num 15);
              specs := minValueSpecs (Num 18); validations := ["valueRange"] |}
           "valueRange" (Some (codeWith lessThanMinValue (minValueSpecs (Num 18))))).
  - compute_done.
  - reflexivity.
  - reflexivity.
  - reflexivity.
  - reflexivity.
Defined.

Lemma validate_returns_witness :
  (validate
     (addValidation ["name"] "noWhitespace" None
        (FormValidator_new (VObject [("name", VString "  ")])))).2
  = Normal tt.
Proof.
  apply validate_returns. intros field item Hin _.
  fields_of (addValidation ["name"] "noWhitespace" None
               (FormValidator_new (VObject [("name", VString "  ")]))).
  apply list_elem_of_singleton in Hin. injection Hin as -> ->.
  right. by eexists.
Defined.

Lemma only_valid_kinds_stored_witness :
  validKinds (validate sampleValidator).1
  /\ validateField (VString "abc") "minLength" (minLengthSpecs (Num 5)) = Normal None.
Proof.
  destruct only_valid_kinds_stored as (Hnew & Hadd & _ & Hvalidate & Hunknown).
  split.
  - apply Hvalidate. unfold sampleValidator. do 3 apply Hadd. apply Hnew.
  - apply Hunknown. simpl. intuition discriminate.
Defined.

Lemma range_bounds_inclusive_witness :
  (validateField (VNumber (Num 18)) "valueRange"
     {| minLength := None; maxLength := None; minValue := Some (Num 18);
        maxValue := Some (Num 65); minDate := None; maxDate := None |}
   = Normal None <-> Num 18 = NaN \/ exists z, Num 18 = Num z /\ 18 <= z <= 65)
  /\ (validateField (VString "abcdefghij") "textLength" length3to10 = Normal None
      <-> 3 <= Z.of_nat (String.length "abcdefghij") <= 10)
  /\ (validateField (VDate 1641686399999) "dateRange"
        {| minLength := None; maxLength := None; minValue := None; maxValue := None;
           minDate := Some 1641600000000; maxDate := Some 1641600000000 |}
      = Normal None
      <-> clearTime 1641600000000 <= clearTime 1641686399999 <= clearTime 1641600000000).
Proof.
  destruct range_bounds_inclusive as (Hvalue & Htext & Hdate).
  split_and!.
  - apply Hvalue; [reflexivity|reflexivity|lia|lia].
  - apply Htext; [reflexivity|reflexivity|lia|lia].
  - apply Hdate; reflexivity.
Defined.

Lemma error_echoes_violated_bound_witness :
  exists n bound,
    VNumber (Num 15) = VNumber n /\ minValue (minValueSpecs (Num 18)) = Some bound
    /\ number_lt n bound = true.
Proof.
  destruct (error_echoes_violated_bound (VNumber (Num 15)) "valueRange"
              (minValueSpecs (Num 18))
              (codeWith lessThanMinValue (minValueSpecs (Num 18))) eq_refl)
    as [Hnone|[(d & bound & Htype & _)|[(d & bound & Htype & _)
       |[(s & bound & Htype & _)|[(s & bound & Htype & _)
       |[(n & bound & _ & Hv & Hmin & Hlt & _)|(n & bound & _ & _ & _ & _ & Hfe)]]]]]];
    try discriminate.
  exists n, bound. split_and!; assumption.
Defined.

Lemma noWhitespace_rejects_blank_strings_witness :
  validateField VNull "noWhitespace" noSpecs = Normal None
  /\ validateField (VNumber (Num 0)) "noWhitespace" noSpecs = Normal None.
Proof.
  destruct noWhitespace_rejects_blank_strings as (_ & Hfalsy).
  split; apply Hfalsy; reflexivity.
Defined.

Lemma distinct_keys_invariant_witness :
  wellNamed (validate sampleValidator).1 /\ NoDup (errorKeys (validate sampleValidator).1).
Proof.
  destruct distinct_keys_invariant as (Hnew & Hadd & _ & Hvalidate).
  assert (Forall (fun property : string * any => property.1 <> EmptyString)
            (enumerate (VObject [("email", VString "bad"); ("age", VNumber (Num 15));
                                 ("when", VDate 1641600000000)]))) as Hkeys.
  { cbn [enumerate]. repeat (apply Forall_cons; split; [discriminate|]). constructor. }
  destruct (Hnew _ Hkeys) as [Hnamed Hnd].
  destruct (Hvalidate sampleValidator) as [Hkeep ->]. unfold sampleValidator.
  split.
  - apply Hkeep. unfold sampleValidator. do 3 apply Hadd. exact Hnamed.
  - rewrite !(proj2 (Hadd _ _ _ _)). exact Hnd.
Defined.

Lemma options_dependencies_mutual_witness :
  exists o',
    o' ∈ CustomOptions.options
    /\ CustomOptions.configName ∈ CustomOptions.flags o'
    /\ CustomOptions.errorMessage o' = Some "-cp must be defined along with -cn".
Proof.
  destruct options_dependencies_mutual as [_ Hmutual].
  destruct (Hmutual
              {| CustomOptions.flags :=
                   [CustomOptions.configPathShort; CustomOptions.configPath];
                 CustomOptions.description := "path of axios config";
                 CustomOptions.mappingName := Some "configPath";
                 CustomOptions.dependedOption :=
                   Some [CustomOptions.configName; CustomOptions.configNameShort];
                 CustomOptions.errorMessage :=
                   Some (CustomOptions.alongWith CustomOptions.configPathShort
                           CustomOptions.configNameShort);
                 CustomOptions.noValue := None |}
              CustomOptions.configName) as (o' & Hin & Hflag & _ & Hmsg).
  - unfold CustomOptions.options. member.
  - member.
  - exists o'. split_and!; [exact Hin|exact Hflag|exact Hmsg].
Defined.
End FurtherExamples.
